(** * Randomized Bayesian hierarchical clustering ([rbhc.py])

    A shallow embedding of the classes [rbhc] and [rbhc_Node] of [rbhc.py],
    and the properties of the recursive partitioning they implement.

    - A numpy data array of shape (n, d) is a [list Row]; the row type is a
      section variable.  [np.vstack((a, row))] appends one row to [a].
    - Python floats are IEEE binary64 numbers: [PrimFloat.float], with [+] as
      [PrimFloat.add] and [a >= b] as [PrimFloat.leb b a].
    - The statements of the program act on a [world]: the state of numpy's
      process-wide random generator, the lines printed so far, and the
      arguments captured at the two external collaborators (the data model's
      [log_marginal_likelihood] and the exact clusterer [bhc]).
    - A statement either returns, raises, or runs out of recursion depth. *)

From Stdlib Require Import String DecimalString.
From Stdlib Require Import List ZArith Lia Bool Arith PeanoNat.
From Stdlib Require Import Permutation Sorted.
From Stdlib Require Import PrimFloat FloatOps FloatAxioms SpecFloat.
Import ListNotations.

Set Implicit Arguments.

(** ** Exceptions and outcomes *)

(** The exceptions the modelled statements can raise. *)
Inductive exn : Type :=
| ValueError      (* np.random.choice: sample larger than population, bad size *)
| AttributeError  (* reading an attribute that is missing, or of None *)
| IndexError      (* numpy indexing out of bounds, positional access past the end *)
| TypeError       (* subscripting an object that has no items *)
| OverflowError.  (* np.random.choice: a size that does not fit a C long *)

(** What running a statement gives: a value, an exception, or exhaustion of
    the recursion depth granted to [recursive_split]. *)
Inductive outcome (A : Type) : Type :=
| Ok (a : A)
| Raise (e : exn)
| OutOfFuel.

Arguments Ok {A} a.
Arguments Raise {A} e.
Arguments OutOfFuel {A}.

Definition is_ok {A} (o : outcome A) : bool :=
  match o with Ok _ => true | _ => false end.

(** ** numpy's random generator *)

(** The state of [np.random]'s process-wide generator: the values it has yet
    to put out (zeros once the list is at its end) and the number of values
    it has put out so far.  Nothing is assumed of the values, so what holds
    for every state holds for the states the real generator goes through. *)
Record generator : Type := mkGen {
  tape : list nat;
  drawn : nat
}.

(** The generator [k] values further on. *)
Definition advance (k : nat) (g : generator) : generator :=
  mkGen (skipn k (tape g)) (drawn g + k).

(** [rk_interval(max, state)]: the next value, brought within [0, max]. *)
Definition interval (max : nat) (g : generator) : nat * generator :=
  (hd 0 (tape g) mod S max, advance 1 g).

Section RBHC.

(** One row of the data array (a datum). *)
Variable Row : Type.

(** ** The world *)

Record world : Type := mkWorld {
  rng : generator;                (* np.random's global state *)
  stdout : list string;           (* lines printed, oldest first *)
  lml_calls : list (list Row);    (* arguments of log_marginal_likelihood calls *)
  bhc_calls : list (list Row)     (* data arguments of bhc(...) calls *)
}.

Definition M (A : Type) : Type := world -> outcome A * world.

Definition ret {A} (a : A) : M A := fun w => (Ok a, w).

Definition raise {A} (e : exn) : M A := fun w => (Raise e, w).

Definition bind {A B} (m : M A) (k : A -> M B) : M B :=
  fun w =>
    match m w with
    | (Ok a, w') => k a w'
    | (Raise e, w') => (Raise e, w')
    | (OutOfFuel, w') => (OutOfFuel, w')
    end.

Notation "x <- m ;; k" := (bind m (fun x => k))
  (at level 61, m at next level, right associativity).
Notation "m ;;; k" := (bind m (fun _ => k))
  (at level 61, right associativity).

(** [print(x)]: one more line on standard output. *)
Definition print (s : string) : M unit :=
  fun w => (Ok tt, mkWorld (rng w) (stdout w ++ [s]) (lml_calls w) (bhc_calls w)).

Definition str_of_nat (n : nat) : string := NilZero.string_of_uint (Nat.to_uint n).

(** Reading an attribute that may be unset (or a value that may be None). *)
Definition attr {A} (o : option A) : M A :=
  match o with
  | Some a => ret a
  | None => raise AttributeError
  end.

(** [for x in xs: body], the loop state threaded through the body. *)
Fixpoint for_each {A S} (xs : list A) (body : S -> A -> M S) (s : S) : M S :=
  match xs with
  | [] => ret s
  | x :: xs' => s' <- body s x ;; for_each xs' body s'
  end.

(** ** numpy *)

(** [a[ind]] for an integer index within [0, n). *)
Definition getitem (a : list Row) (ind : nat) : M Row :=
  match nth_error a ind with
  | Some r => ret r
  | None => raise IndexError
  end.

(** [a[idx]] for an index array: the rows in the order of the indices. *)
Fixpoint take (a : list Row) (idx : list nat) : M (list Row) :=
  match idx with
  | [] => ret []
  | i :: idx' => r <- getitem a i ;; rs <- take a idx' ;; ret (r :: rs)
  end.

(** [np.vstack((a, row))]: a new array, [a] with [row] as its last row. *)
Definition vstack (a : list Row) (row : Row) : list Row := a ++ [row].

(** [np.arange(n)]. *)
Definition arange (n : nat) : list nat := seq 0 n.

Definition mem (i : nat) (l : list nat) : bool := existsb (Nat.eqb i) l.

(** [np.setdiff1d(ar1, ar2, assume_unique=True)]: the entries of [ar1] that
    are not in [ar2], in the order they have in [ar1]. *)
Definition setdiff1d (ar1 ar2 : list nat) : list nat :=
  filter (fun i => negb (mem i ar2)) ar1.

(** The index that ends up at position [k] when [i] and [j] change places. *)
Definition transpose (i j k : nat) : nat :=
  if Nat.eqb k i then j else if Nat.eqb k j then i else k.

(** [x[i], x[j] = x[j], x[i]]. *)
Definition swap (x : list nat) (i j : nat) : list nat :=
  map (fun k => nth (transpose i j k) x 0) (seq 0 (length x)).

(** The loop of [shuffle(x)], from position [i] down:
    [for i in reversed(range(1, n)): j = rk_interval(i); x[i], x[j] = x[j], x[i]]. *)
Fixpoint shuffle (i : nat) (x : list nat) (g : generator) : list nat * generator :=
  match i with
  | O => (x, g)
  | S i' => let (j, g') := interval i g in shuffle i' (swap x i j) g'
  end.

(** [permutation(n)]: [arange(n)] shuffled; it takes n - 1 values of the
    generator for n of two or more, and none below. *)
Definition permutation (n : nat) (g : generator) : list nat * generator :=
  shuffle (n - 1) (arange n) g.

(** The largest and the smallest value of a C long. *)
Definition long_max : Z := 2 ^ 63 - 1.
Definition long_min : Z := - 2 ^ 63.

(** [np.random.choice(a, size, replace=False)], in the order numpy goes
    through it: an empty [a] is refused unless no sample is asked for; the
    size is converted to a C long, which fails outside its range; a size above
    the population and a negative size are refused; then the population's
    positions are shuffled whole and the first [size] of them index [a].
    An array has at most [long_max] entries, so a size above [long_max] is
    above every population there is; the lists here have no such bound, and
    the conversion is taken to fail for the sizes above the population. *)
Definition random_choice (a : list nat) (size : Z) : M (list nat) :=
  fun w =>
    if Nat.eqb (length a) 0 && negb (size =? 0)%Z then (Raise ValueError, w)
    else if (size <? long_min)%Z
            || ((long_max <? size)%Z && (Z.of_nat (length a) <? size)%Z)
    then (Raise OverflowError, w)
    else if (Z.of_nat (length a) <? size)%Z then (Raise ValueError, w)
    else if (size <? 0)%Z then (Raise ValueError, w)
    else
      let (p, g') := permutation (length a) (rng w) in
      (Ok (map (fun k => nth k a 0) (firstn (Z.to_nat size) p)),
       mkWorld g' (stdout w) (lml_calls w) (bhc_calls w)).

(** ** The collaborators: data model and exact clusterer *)

(** [data_model]: a CollapsibleDistribution, of which only
    [log_marginal_likelihood] is used. *)
Record CollapsibleDistribution : Type := {
  log_marginal_likelihood : list Row -> float
}.

(** A node of the tree built by [bhc], as far as [rbhc_Node] reads it. *)
Record Node : Type := mkNode {
  Node_data : list Row;
  log_pi : float
}.

(** The root of a [bhc] tree; a child is None when the tree is a single leaf. *)
Record RootNode : Type := mkRoot {
  left_child : option Node;
  right_child : option Node
}.

Record bhc_tree : Type := mkBhc {
  root_node : RootNode
}.

(** [bhc(data, data_model, crp_alpha)], imported from module [bhc]. *)
Variable bhc : list Row -> CollapsibleDistribution -> float -> bhc_tree.

(** Calling the data model, the argument captured. *)
Definition call_lml (dm : CollapsibleDistribution) (rows : list Row) : M float :=
  fun w =>
    (Ok (log_marginal_likelihood dm rows),
     mkWorld (rng w) (stdout w) (lml_calls w ++ [rows]) (bhc_calls w)).

(** Calling the exact clusterer, the data argument captured. *)
Definition call_bhc (rows : list Row) (dm : CollapsibleDistribution) (alpha : float)
  : M bhc_tree :=
  fun w =>
    (Ok (bhc rows dm alpha),
     mkWorld (rng w) (stdout w) (lml_calls w) (bhc_calls w ++ [rows])).

(** ** class rbhc_Node *)

Record rbhc_Node : Type := mkRbhcNode {
  data : list Row;
  data_model : CollapsibleDistribution;
  crp_alpha : float;
  nk : nat;
  (* attributes that exist only once assigned *)
  log_rk : option float;
  sub_indexes : option (list nat);
  sub_bhc : option bhc_tree;
  left_data : option (list Row);
  right_data : option (list Row)
}.

(** [rbhc_Node.__init__(data, data_model, crp_alpha)]. *)
Definition rbhc_Node_init (d : list Row) (dm : CollapsibleDistribution) (alpha : float)
  : rbhc_Node :=
  mkRbhcNode d dm alpha (length d) None None None None None.

(** [set_rk(log_rk)]. *)
Definition set_rk (self : rbhc_Node) (v : float) : rbhc_Node :=
  mkRbhcNode (data self) (data_model self) (crp_alpha self) (nk self)
    (Some v) (sub_indexes self) (sub_bhc self) (left_data self) (right_data self).

Definition set_sub (self : rbhc_Node) (idx : list nat) (t : bhc_tree) : rbhc_Node :=
  mkRbhcNode (data self) (data_model self) (crp_alpha self) (nk self)
    (log_rk self) (Some idx) (Some t) (left_data self) (right_data self).

Definition set_left_data (self : rbhc_Node) (l : list Row) : rbhc_Node :=
  mkRbhcNode (data self) (data_model self) (crp_alpha self) (nk self)
    (log_rk self) (sub_indexes self) (sub_bhc self) (Some l) (right_data self).

Definition set_right_data (self : rbhc_Node) (r : list Row) : rbhc_Node :=
  mkRbhcNode (data self) (data_model self) (crp_alpha self) (nk self)
    (log_rk self) (sub_indexes self) (sub_bhc self) (left_data self) (Some r).

(** [subsample_bhc(sub_size)]. *)
Definition subsample_bhc (self : rbhc_Node) (sub_size : Z) : M rbhc_Node :=
  idx <- random_choice (arange (nk self)) sub_size ;;
  sub_data <- take (data self) idx ;;
  t <- call_bhc sub_data (data_model self) (crp_alpha self) ;;
  ret (set_sub self idx t).

(** The body of the loop of [filter_data], for the index [ind]. *)
Definition filter_body (self : rbhc_Node) (ind : nat) : M rbhc_Node :=
  t <- attr (sub_bhc self) ;;
  lc <- attr (left_child (root_node t)) ;;
  ld <- attr (left_data self) ;;
  row <- getitem (data self) ind ;;
  ml <- call_lml (data_model self) (vstack ld row) ;;
  let left_prob := PrimFloat.add (log_pi lc) ml in
  rc <- attr (right_child (root_node t)) ;;
  rd <- attr (right_data self) ;;
  mr <- call_lml (data_model self) (vstack rd row) ;;
  let right_prob := PrimFloat.add (log_pi rc) mr in
  if PrimFloat.leb right_prob left_prob
  then ret (set_left_data self (vstack ld row))
  else ret (set_right_data self (vstack rd row)).

(** [filter_data()]. *)
Definition filter_data (self : rbhc_Node) : M rbhc_Node :=
  t <- attr (sub_bhc self) ;;
  lc <- attr (left_child (root_node t)) ;;
  let self := set_left_data self (Node_data lc) in
  rc <- attr (right_child (root_node t)) ;;
  let self := set_right_data self (Node_data rc) in
  idx <- attr (sub_indexes self) ;;
  let notsub_indexes := setdiff1d (arange (nk self)) idx in
  for_each notsub_indexes filter_body self.

(** The second component of what [as_split] returns: two child nodes, or the
    [bhc] tree of all the data. *)
Inductive children_t : Type :=
| Children (l : list rbhc_Node)
| BhcTree (t : bhc_tree).

(** [rbhc_Node.as_split(parent_node, sub_size)].  The node is returned too,
    with the attributes the call has assigned. *)
Definition as_split (parent_node : rbhc_Node) (sub_size : Z)
  : M (rbhc_Node * (bool * children_t)) :=
  print (str_of_nat (nk parent_node)) ;;;
  if (sub_size <? Z.of_nat (nk parent_node))%Z then
    parent_node <- subsample_bhc parent_node sub_size ;;
    parent_node <- filter_data parent_node ;;
    ld <- attr (left_data parent_node) ;;
    let left_child := rbhc_Node_init ld (data_model parent_node) (crp_alpha parent_node) in
    rd <- attr (right_data parent_node) ;;
    let right_child := rbhc_Node_init rd (data_model parent_node) (crp_alpha parent_node) in
    ret (parent_node, (true, Children [left_child; right_child]))
  else
    children <- call_bhc (data parent_node) (data_model parent_node)
                  (crp_alpha parent_node) ;;
    ret (parent_node, (false, BhcTree children)).

(** ** class rbhc *)

(** The attribute [assignments], a list holding one array of zeros, is
    assigned once in [__init__] and read nowhere; it is left out. *)
Record rbhc : Type := mkRbhc {
  rbhc_data : list Row;
  rbhc_data_model : CollapsibleDistribution;
  rbhc_crp_alpha : float;
  sub_size : Z
}.

(** [recursive_split] returns nothing in Python; the embedding returns the
    tree of its calls: at each call the node as [as_split] left it, and at a
    call that did not split the [children] that [as_split] returned (the
    [bhc] tree of the node's data). *)
Inductive call_tree : Type :=
| Leaf (node : rbhc_Node) (children : children_t)
| Split (node : rbhc_Node) (l r : call_tree).

(** [children[i]]. *)
Definition child (c : children_t) (i : nat) : M rbhc_Node :=
  match c with
  | Children l =>
      match nth_error l i with
      | Some n => ret n
      | None => raise IndexError
      end
  | BhcTree _ => raise TypeError
  end.

(** [recursive_split(parent_node)], with [fuel] bounding the depth of the
    recursion. *)
Fixpoint recursive_split (fuel : nat) (self : rbhc) (parent_node : rbhc_Node)
  : M call_tree :=
  match fuel with
  | O => fun w => (OutOfFuel, w)
  | S fuel' =>
      res <- as_split parent_node (sub_size self) ;;
      let '(node, (rBHC_split, children)) := res in
      if rBHC_split then
        c0 <- child children 0 ;;
        l <- recursive_split fuel' self c0 ;;
        c1 <- child children 1 ;;
        r <- recursive_split fuel' self c1 ;;
        ret (Split node l r)
      else
        print "reached the leaves" ;;; ret (Leaf node children)
  end.

(** [rbhc.__init__(data, data_model, crp_alpha, sub_size)]. *)
Definition rbhc_init (fuel : nat) (d : list Row) (dm : CollapsibleDistribution)
  (alpha : float) (m : Z) : M (rbhc * call_tree) :=
  let self := mkRbhc d dm alpha m in
  let root_node := rbhc_Node_init d dm alpha in
  t <- recursive_split fuel self root_node ;;
  ret (self, t).

End RBHC.

Arguments mkWorld {Row} rng stdout lml_calls bhc_calls.
Arguments Build_CollapsibleDistribution {Row} log_marginal_likelihood.
Arguments mkNode {Row} Node_data log_pi.
Arguments mkRoot {Row} left_child right_child.
Arguments mkBhc {Row} root_node.

(** ** Reading a call tree *)

Section CallTree.

Variable Row : Type.

(** The node a call of [recursive_split] was made on. *)
Definition node_of (t : call_tree Row) : rbhc_Node Row :=
  match t with
  | Leaf n _ => n
  | Split n _ _ => n
  end.

(** The rows of the terminal leaves, left to right. *)
Fixpoint leaf_rows (t : call_tree Row) : list Row :=
  match t with
  | Leaf n _ => data n
  | Split _ l r => leaf_rows l ++ leaf_rows r
  end.

(** The number of calls that took the splitting branch of [as_split]. *)
Fixpoint splits (t : call_tree Row) : nat :=
  match t with
  | Leaf _ _ => 0
  | Split _ l r => 1 + splits l + splits r
  end.

(** The number of calls that took the terminal branch. *)
Fixpoint leaves (t : call_tree Row) : nat :=
  match t with
  | Leaf _ _ => 1
  | Split _ l r => leaves l + leaves r
  end.

(** At every split the two children are non-empty and strictly smaller than
    their parent. *)
Fixpoint shrinking (t : call_tree Row) : Prop :=
  match t with
  | Leaf _ _ => True
  | Split n l r =>
      0 < nk (node_of l) < nk n /\ 0 < nk (node_of r) < nk n /\
      shrinking l /\ shrinking r
  end.

(** At every split the node's [left_data] and [right_data] are the data of
    the two children and hold the node's rows, each once. *)
Fixpoint partitioning (t : call_tree Row) : Prop :=
  match t with
  | Leaf _ _ => True
  | Split n l r =>
      left_data n = Some (data (node_of l)) /\
      right_data n = Some (data (node_of r)) /\
      Permutation (data (node_of l) ++ data (node_of r)) (data n) /\
      partitioning l /\ partitioning r
  end.

(** The rows of [a] at the indices [idx], those out of range skipped. *)
Definition rows_at (a : list Row) (idx : list nat) : list Row :=
  flat_map (fun i => match nth_error a i with Some r => [r] | None => [] end) idx.

(** ** The filtering rule in the words of the specification *)

Variable dm : CollapsibleDistribution Row.
Variables log_pi_left log_pi_right : float.

Definition leftScore (leftData : list Row) (r : Row) : float :=
  PrimFloat.add log_pi_left (log_marginal_likelihood dm (leftData ++ [r])).

Definition rightScore (rightData : list Row) (r : Row) : float :=
  PrimFloat.add log_pi_right (log_marginal_likelihood dm (rightData ++ [r])).

(** [leftScore >= rightScore]. *)
Definition prefers_left (leftData rightData : list Row) (r : Row) : bool :=
  PrimFloat.leb (rightScore rightData r) (leftScore leftData r).

(** Section 4.2: every row in turn is appended to the side with the larger
    score, scored against the sides as they have grown so far. *)
Fixpoint filterRemaining (rows : list Row) (leftData rightData : list Row)
  : list Row * list Row :=
  match rows with
  | [] => (leftData, rightData)
  | r :: rows' =>
      if prefers_left leftData rightData r
      then filterRemaining rows' (leftData ++ [r]) rightData
      else filterRemaining rows' leftData (rightData ++ [r])
  end.

(** The row sets handed to the data model on the way, in order. *)
Fixpoint filterRemaining_evals (rows : list Row) (leftData rightData : list Row)
  : list (list Row) :=
  match rows with
  | [] => []
  | r :: rows' =>
      (leftData ++ [r]) :: (rightData ++ [r]) ::
      (if prefers_left leftData rightData r
       then filterRemaining_evals rows' (leftData ++ [r]) rightData
       else filterRemaining_evals rows' leftData (rightData ++ [r]))
  end.

(** The batch assignment the specification contrasts with: every row scored
    against the seed sets alone. *)
Fixpoint filterBatch (rows : list Row) (leftSeed rightSeed : list Row)
  (leftData rightData : list Row) : list Row * list Row :=
  match rows with
  | [] => (leftData, rightData)
  | r :: rows' =>
      if prefers_left leftSeed rightSeed r
      then filterBatch rows' leftSeed rightSeed (leftData ++ [r]) rightData
      else filterBatch rows' leftSeed rightSeed leftData (rightData ++ [r])
  end.

End CallTree.

(** ** The interface of the exact clusterer *)

(** Modelled from the spec: the module [bhc] (the exact clusterer) is not part
    of [rbhc.py].  Section 6 of the specification gives its interface: on one
    row the tree is a single leaf and exposes no children; on two rows or more
    the root has two children, each with its member rows and a [log_pi], and
    the two sides are non-empty and together hold the rows clustered, each
    once.  Nothing is said for an empty input. *)
Definition bhc_contract {Row : Type}
  (bhc : list Row -> CollapsibleDistribution Row -> float -> bhc_tree Row) : Prop :=
  forall rows dm alpha,
    match rows with
    | [] => True
    | [_] =>
        left_child (root_node (bhc rows dm alpha)) = None /\
        right_child (root_node (bhc rows dm alpha)) = None
    | _ :: _ :: _ =>
        exists lc rc,
          left_child (root_node (bhc rows dm alpha)) = Some lc /\
          right_child (root_node (bhc rows dm alpha)) = Some rc /\
          Node_data lc <> [] /\ Node_data rc <> [] /\
          Permutation (Node_data lc ++ Node_data rc) rows
    end.

(** ** Concrete instances *)

(** An exact clusterer that meets the interface: the first row against the
    rest, both sides with [log_pi] zero. *)
Definition split_first {Row : Type} (rows : list Row)
  (dm : CollapsibleDistribution Row) (alpha : float) : bhc_tree Row :=
  match rows with
  | x :: (_ :: _) as rest =>
      mkBhc (mkRoot (Some (mkNode [x] 0%float)) (Some (mkNode rest 0%float)))
  | _ => mkBhc (mkRoot None None)
  end.

(** A data model whose likelihood depends on the number of rows only: zero
    for two rows, minus one otherwise. *)
Definition by_size : CollapsibleDistribution float :=
  Build_CollapsibleDistribution
    (fun rows => if Nat.eqb (length rows) 2 then 0%float else (-1)%float).

(** A constant data model: every score ties. *)
Definition flat_model : CollapsibleDistribution float :=
  Build_CollapsibleDistribution (fun _ => 0%float).

(** A generator at its start, all of whose values are zero. *)
Definition fresh : generator := mkGen [] 0.

Definition empty_world : world float := mkWorld fresh [] [] [].

(** Four one-dimensional data points. *)
Definition four_rows : list float := [1%float; 2%float; 3%float; 4%float].

(** The build of the four points with a subsample of two, from the empty
    world: the tree of its calls and the world it ends in. *)
Definition four_rows_tree : call_tree float :=
  Eval vm_compute in
    match fst (rbhc_init (@split_first float) 5 four_rows by_size 1%float 2 empty_world) with
    | Ok (_, t) => t
    | _ => Leaf (rbhc_Node_init [] by_size 1%float) (Children [])
    end.

Definition four_rows_world : world float :=
  Eval vm_compute in
    snd (rbhc_init (@split_first float) 5 four_rows by_size 1%float 2 empty_world).

(** ** What a call may change *)

Section Frames.

Variable Row : Type.

(** Two states of a node with the same constructor arguments: the attributes
    [__init__] assigns are those of the other. *)
Definition same_inputs (a b : rbhc_Node Row) : Prop :=
  data b = data a /\ data_model b = data_model a /\
  crp_alpha b = crp_alpha a /\ nk b = nk a /\ log_rk b = log_rk a.

(** The captured calls [l'] continue the captured calls [l]. *)
Definition extends (l l' : list (list Row)) : Prop := exists new, l' = l ++ new.

(** Every row set captured after [l] is some row set with one row appended. *)
Definition appended_since (l l' : list (list Row)) : Prop :=
  exists new, l' = l ++ new /\
    Forall (fun rows => exists side row, rows = side ++ [row]) new.

(** What [filter_data] may change: of the node, [left_data] and [right_data];
    of the world, nothing but the capture of its data-model calls. *)
Definition filter_frame (self : rbhc_Node Row) (w : world Row)
  (r : outcome (rbhc_Node Row) * world Row) : Prop :=
  rng (snd r) = rng w /\ stdout (snd r) = stdout w /\
  bhc_calls (snd r) = bhc_calls w /\
  appended_since (lml_calls w) (lml_calls (snd r)) /\
  forall self', fst r = Ok self' ->
    same_inputs self self' /\
    sub_indexes self' = sub_indexes self /\ sub_bhc self' = sub_bhc self.



End Frames.

(** ** Reading a call tree, continued *)

Section Traces.

Variable Row : Type.

(** The lines a build prints: at every call the node's count, and at a call
    that did not split the line that follows it. *)
Fixpoint printed (t : call_tree Row) : list string :=
  match t with
  | Leaf n _ => [str_of_nat (nk n); "reached the leaves"%string]
  | Split n l r => str_of_nat (nk n) :: printed l ++ printed r
  end.

(** The row sets a build hands to [bhc]: at a split the rows of the
    subsample, at a leaf all the node's rows. *)
Fixpoint clustered (t : call_tree Row) : list (list Row) :=
  match t with
  | Leaf n _ => [data n]
  | Split n l r =>
      match sub_indexes n with
      | Some idx => [rows_at (data n) idx]
      | None => []
      end ++ clustered l ++ clustered r
  end.

Fixpoint every_call (P : rbhc_Node Row -> Prop) (t : call_tree Row) : Prop :=
  match t with
  | Leaf n _ => P n
  | Split n l r => P n /\ every_call P l /\ every_call P r
  end.

Fixpoint every_leaf (P : rbhc_Node Row -> children_t Row -> Prop)
  (t : call_tree Row) : Prop :=
  match t with
  | Leaf n c => P n c
  | Split _ l r => every_leaf P l /\ every_leaf P r
  end.

Fixpoint every_split (P : rbhc_Node Row -> Prop) (t : call_tree Row) : Prop :=
  match t with
  | Leaf _ _ => True
  | Split n l r => P n /\ every_split P l /\ every_split P r
  end.

(** The number of rows a build filters: at every split, the rows of the node
    that are not in its subsample. *)
Fixpoint filtered (t : call_tree Row) : nat :=
  match t with
  | Leaf _ _ => 0
  | Split n l r =>
      (nk n - match sub_indexes n with Some idx => length idx | None => 0 end)
      + filtered l + filtered r
  end.

(** The depth of the recursion: the longest chain of nested calls. *)
Fixpoint depth (t : call_tree Row) : nat :=
  match t with
  | Leaf _ _ => 1
  | Split _ l r => S (Nat.max (depth l) (depth r))
  end.

(** The rows of [rows] that the mask sends to [side], in their order. *)
Fixpoint pick (side : bool) (mask : list bool) (rows : list Row) : list Row :=
  match mask, rows with
  | b :: mask', r :: rows' =>
      if Bool.eqb b side then r :: pick side mask' rows' else pick side mask' rows'
  | _, _ => []
  end.

(** A function applied to what a statement returns, when it returns. *)
Definition on_ok {A B : Type} (f : A -> B) (r : outcome A * world Row)
  : outcome B * world Row :=
  (match fst r with
   | Ok a => Ok (f a)
   | Raise e => Raise e
   | OutOfFuel => OutOfFuel
   end, snd r).

End Traces.

(** * Properties *)

(** ** Floats *)

(** Two floats that compare equal compare as greater-or-equal (a NaN is
    equal to nothing, itself included). *)
Lemma float_eqb_geb (x y : float) :
  PrimFloat.eqb x y = true -> PrimFloat.leb y x = true.
Proof.
  rewrite eqb_spec, leb_spec. unfold SFeqb, SFleb.
  destruct (Prim2SF x) as [s1|s1| |s1 m1 e1], (Prim2SF y) as [s2|s2| |s2 m2 e2];
    simpl; try discriminate; try reflexivity.
  all: try (destruct s1, s2; simpl; try discriminate; reflexivity).
  all: destruct s1, s2; simpl; try discriminate.
  all: rewrite (Z.compare_antisym e1 e2); destruct (e1 ?= e2)%Z;
    simpl; try discriminate; try reflexivity.
  all: change (PosDef.Pos.compare_cont Eq m2 m1) with (Pos.compare m2 m1);
    change (PosDef.Pos.compare_cont Eq m1 m2) with (Pos.compare m1 m2).
  all: rewrite (Pos.compare_antisym m1 m2); destruct (m1 ?= m2)%positive;
    simpl; try discriminate; reflexivity.
Qed.

(** ** Sampling without replacement *)

Lemma transpose_involutive (i j k : nat) : transpose i j (transpose i j k) = k.
Proof.
  unfold transpose.
  destruct (Nat.eqb_spec k i) as [->|Hki].
  - destruct (Nat.eqb_spec j i) as [->|Hji]; [reflexivity|].
    rewrite Nat.eqb_refl. reflexivity.
  - destruct (Nat.eqb_spec k j) as [->|Hkj].
    + rewrite Nat.eqb_refl. reflexivity.
    + destruct (Nat.eqb_spec k i); [contradiction|].
      destruct (Nat.eqb_spec k j); [contradiction | reflexivity].
Qed.

Lemma transpose_bound (n i j k : nat) :
  i < n -> j < n -> k < n -> transpose i j k < n.
Proof.
  intros Hi Hj Hk. unfold transpose.
  destruct (Nat.eqb k i); [exact Hj|]. destruct (Nat.eqb k j); assumption.
Qed.

Lemma transpose_seq (n i j : nat) :
  i < n -> j < n -> Permutation (map (transpose i j) (seq 0 n)) (seq 0 n).
Proof.
  intros Hi Hj. apply NoDup_Permutation.
  - apply Finite.Injective_map_NoDup; [|apply seq_NoDup].
    intros a b E. rewrite <- (transpose_involutive i j a), E.
    apply transpose_involutive.
  - apply seq_NoDup.
  - intro k. rewrite in_map_iff. split.
    + intros (k' & <- & Hk'). apply in_seq in Hk'. apply in_seq.
      pose proof (@transpose_bound n i j k' Hi Hj). lia.
    + intro Hk. exists (transpose i j k). split; [apply transpose_involutive|].
      apply in_seq in Hk. apply in_seq.
      pose proof (@transpose_bound n i j k Hi Hj). lia.
Qed.

Lemma nth_over_seq_from : forall (x pre : list nat),
  map (fun k => nth k (pre ++ x) 0) (seq (length pre) (length x)) = x.
Proof.
  induction x as [|a x IH]; intro pre; cbn [length seq map]; [reflexivity|].
  rewrite app_nth2, Nat.sub_diag by lia. cbn [nth]. f_equal.
  specialize (IH (pre ++ [a])). rewrite <- app_assoc, length_app in IH.
  cbn [length app] in IH. rewrite Nat.add_1_r in IH. exact IH.
Qed.

Lemma nth_over_seq (x : list nat) :
  map (fun k => nth k x 0) (seq 0 (length x)) = x.
Proof. exact (nth_over_seq_from x []). Qed.

Lemma swap_length (x : list nat) (i j : nat) : length (swap x i j) = length x.
Proof. unfold swap. rewrite length_map, length_seq. reflexivity. Qed.

(** Two entries changing places leave the entries what they were. *)
Lemma swap_perm (x : list nat) (i j : nat) :
  i < length x -> j < length x -> Permutation (swap x i j) x.
Proof.
  intros Hi Hj. unfold swap.
  rewrite <- (map_map (transpose i j) (fun k => nth k x 0)).
  rewrite (transpose_seq Hi Hj). rewrite nth_over_seq. reflexivity.
Qed.

Lemma advance_advance (a b : nat) (g : generator) :
  advance a (advance b g) = advance (b + a) g.
Proof.
  unfold advance. cbn [tape drawn].
  rewrite skipn_skipn, (Nat.add_comm a b), Nat.add_assoc. reflexivity.
Qed.


Lemma advance_zero (g : generator) : advance 0 g = g.
Proof. destruct g as [t d]. unfold advance. cbn. f_equal. lia. Qed.

(** The shuffle from position [i] down rearranges the entries and takes [i]
    values of the generator. *)
Lemma shuffle_spec : forall (i : nat) (x : list nat) (g : generator),
  i < length x \/ i = 0 ->
  Permutation (fst (shuffle i x g)) x /\ snd (shuffle i x g) = advance i g.
Proof.
  induction i as [|i IH]; intros x g Hi.
  - cbn. rewrite advance_zero. split; reflexivity.
  - destruct Hi as [Hi|Hi]; [|discriminate Hi].
    cbn [shuffle]. unfold interval.
    set (j := hd 0 (tape g) mod S (S i)).
    assert (Hj : j < length x).
    { pose proof (Nat.mod_upper_bound (hd 0 (tape g)) (S (S i))) as Hb.
      subst j. lia. }
    destruct (IH (swap x (S i) j) (advance 1 g)) as (Hp & Hg).
    { left. rewrite swap_length. lia. }
    split.
    + rewrite Hp. apply swap_perm; assumption.
    + rewrite Hg, advance_advance. reflexivity.
Qed.

(** [permutation(n)] puts out the positions below [n], each once, and
    leaves the generator n - 1 values further on. *)
Lemma permutation_spec (n : nat) (g : generator) :
  Permutation (fst (permutation n g)) (arange n) /\
  snd (permutation n g) = advance (n - 1) g.
Proof.
  unfold permutation. apply shuffle_spec.
  unfold arange. rewrite length_seq. lia.
Qed.

Lemma firstn_NoDup (k : nat) (l : list nat) : NoDup l -> NoDup (firstn k l).
Proof.
  intro H. rewrite <- (firstn_skipn k l) in H.
  apply NoDup_app_remove_r in H. exact H.
Qed.

Lemma firstn_incl (k : nat) (l : list nat) : incl (firstn k l) l.
Proof.
  intros x Hx. rewrite <- (firstn_skipn k l). apply in_or_app. left. exact Hx.
Qed.

Lemma nth_arange (n : nat) (l : list nat) :
  (forall i, In i l -> i < n) -> map (fun k => nth k (arange n) 0) l = l.
Proof.
  intro H. induction l as [|i l IH]; cbn; [reflexivity|].
  unfold arange at 1. rewrite seq_nth by (apply H; left; reflexivity).
  rewrite IH by (intros; apply H; right; assumption). reflexivity.
Qed.

Section Sampling.

Variable Row : Type.

(** A sample within the population size is drawn: the indices are as many
    as asked for, distinct, and within range; only the generator moves, by
    the shuffle of the whole population. *)
Lemma random_choice_ok (n : nat) (size : Z) (w : world Row) :
  (0 <= size <= Z.of_nat n)%Z ->
  exists idx,
    random_choice (arange n) size w
      = (Ok idx, mkWorld (advance (n - 1) (rng w)) (stdout w) (lml_calls w)
                   (bhc_calls w)) /\
    length idx = Z.to_nat size /\ NoDup idx /\ (forall i, In i idx -> i < n).
Proof.
  intros [H0 Hn].
  assert (Hlen : length (arange n) = n) by apply length_seq.
  unfold random_choice. rewrite Hlen.
  assert (E1 : Nat.eqb n 0 && negb (size =? 0)%Z = false).
  { destruct (Nat.eqb_spec n 0) as [->|Hne]; [|reflexivity].
    assert (size = 0%Z) by lia. subst. reflexivity. }
  rewrite E1.
  assert (E2 : (size <? long_min)%Z
               || ((long_max <? size)%Z && (Z.of_nat n <? size)%Z) = false).
  { destruct (Z.ltb_spec size long_min) as [Hlo|_]; [unfold long_min in Hlo; lia|].
    destruct (Z.ltb_spec (Z.of_nat n) size) as [Hbig|_]; [lia|].
    rewrite andb_false_r. reflexivity. }
  rewrite E2.
  destruct (Z.ltb_spec (Z.of_nat n) size) as [Hbig|_]; [lia|].
  destruct (Z.ltb_spec size 0) as [Hneg|_]; [lia|].
  destruct (permutation_spec n (rng w)) as (Hp & Hg).
  destruct (permutation n (rng w)) as [p g'] eqn:E. cbn [fst snd] in Hp, Hg.
  subst g'.
  assert (Hin : forall i, In i (firstn (Z.to_nat size) p) -> i < n).
  { intros i Hi. apply firstn_incl in Hi.
    apply (Permutation_in _ Hp) in Hi. apply in_seq in Hi. lia. }
  rewrite (nth_arange _ Hin).
  exists (firstn (Z.to_nat size) p). split; [reflexivity|].
  split; [|split; [|exact Hin]].
  - rewrite length_firstn, (Permutation_length Hp). unfold arange.
    rewrite length_seq. lia.
  - apply firstn_NoDup. eapply Permutation_NoDup; [symmetry; exact Hp|].
    apply seq_NoDup.
Qed.



(** A sample larger than the population is refused, the world untouched:
    with a ValueError when the size fits a C long or the population is
    empty, with an OverflowError otherwise. *)
Lemma random_choice_too_large (a : list nat) (size : Z) (w : world Row) :
  (Z.of_nat (length a) < size)%Z ->
  random_choice a size w
  = (Raise (if (long_max <? size)%Z && negb (Nat.eqb (length a) 0)
            then OverflowError else ValueError), w).
Proof.
  intro H. unfold random_choice.
  destruct (Nat.eqb_spec (length a) 0) as [Hz|Hnz]; cbn [andb negb].
  - destruct (Z.eqb_spec size 0) as [->|Hs]; [rewrite Hz in H; cbn in H; lia|].
    rewrite andb_false_r. reflexivity.
  - destruct (Z.ltb_spec size long_min) as [Hlo|_]; [unfold long_min in Hlo; lia|].
    destruct (Z.ltb_spec (Z.of_nat (length a)) size) as [_|Hge]; [|lia].
    cbn [orb]. rewrite andb_true_r.
    destruct (Z.ltb_spec long_max size); reflexivity.
Qed.

(** A negative size is refused, the world untouched: with a ValueError when
    it fits a C long or the population is empty, with an OverflowError
    otherwise. *)
Lemma random_choice_negative (a : list nat) (size : Z) (w : world Row) :
  (size < 0)%Z ->
  random_choice a size w
  = (Raise (if (size <? long_min)%Z && negb (Nat.eqb (length a) 0)
            then OverflowError else ValueError), w).
Proof.
  intro H. unfold random_choice.
  destruct (Nat.eqb_spec (length a) 0) as [Hz|Hnz]; cbn [andb negb].
  - destruct (Z.eqb_spec size 0) as [->|Hs]; [lia|].
    rewrite andb_false_r. reflexivity.
  - rewrite andb_true_r.
    destruct (Z.ltb_spec size long_min) as [Hlo|Hlo]; [reflexivity|].
    destruct (Z.ltb_spec long_max size) as [Hhi|_]; [unfold long_max in Hhi; lia|].
    cbn [andb orb].
    destruct (Z.ltb_spec (Z.of_nat (length a)) size) as [Hbig|_]; [lia|].
    destruct (Z.ltb_spec size 0) as [_|Hge]; [reflexivity | lia].
Qed.

(** ** Index arrays *)

Lemma mem_In (i : nat) (l : list nat) : mem i l = true <-> In i l.
Proof.
  unfold mem. rewrite existsb_exists. split.
  - intros (x & Hx & E). apply Nat.eqb_eq in E. subst. exact Hx.
  - intro H. exists i. split; [exact H | apply Nat.eqb_refl].
Qed.

Lemma setdiff1d_In (ar1 ar2 : list nat) (i : nat) :
  In i (setdiff1d ar1 ar2) <-> In i ar1 /\ ~ In i ar2.
Proof.
  unfold setdiff1d. rewrite filter_In, negb_true_iff.
  pose proof (mem_In i ar2) as Hm.
  destruct (mem i ar2); split; intros [H1 H2]; split; try exact H1.
  - discriminate H2.
  - exfalso. apply H2, Hm. reflexivity.
  - intro Hin. apply Hm in Hin. discriminate Hin.
  - reflexivity.
Qed.

Lemma filter_StronglySorted (f : nat -> bool) (l : list nat) :
  StronglySorted lt l -> StronglySorted lt (filter f l).
Proof.
  induction 1 as [|x l Hs IH Hall]; simpl; [constructor|].
  destruct (f x); [|exact IH]. constructor; [exact IH|].
  rewrite Forall_forall in *. intros y Hy. apply filter_In in Hy. apply Hall, Hy.
Qed.

Lemma seq_StronglySorted : forall (n s : nat), StronglySorted lt (seq s n).
Proof.
  induction n as [|n IH]; intro s; simpl; constructor; [apply IH|].
  rewrite Forall_forall. intros y Hy. apply in_seq in Hy. lia.
Qed.

(** The indices left out of the subsample come in ascending order. *)
Lemma setdiff1d_sorted (n : nat) (idx : list nat) :
  StronglySorted lt (setdiff1d (arange n) idx).
Proof. apply filter_StronglySorted, seq_StronglySorted. Qed.

(** Only the set of sampled indices matters to the difference. *)
Lemma setdiff1d_ext (ar1 idx idx' : list nat) :
  (forall i, In i idx <-> In i idx') -> setdiff1d ar1 idx = setdiff1d ar1 idx'.
Proof.
  intro H. unfold setdiff1d. apply filter_ext. intro i. f_equal.
  destruct (mem i idx) eqn:E1, (mem i idx') eqn:E2; try reflexivity.
  - apply mem_In, H, mem_In in E1. congruence.
  - apply mem_In, H, mem_In in E2. congruence.
Qed.

(** Sampled and non-sampled indices together are all the indices, each once. *)
Lemma sample_and_rest (n : nat) (idx : list nat) :
  NoDup idx -> (forall i, In i idx -> i < n) ->
  Permutation (idx ++ setdiff1d (arange n) idx) (arange n).
Proof.
  intros Hnd Hin. apply NoDup_Permutation.
  - apply NoDup_app; [exact Hnd | | ].
    + apply NoDup_filter, seq_NoDup.
    + intros i Hi Hi'. apply setdiff1d_In in Hi'. tauto.
  - apply seq_NoDup.
  - intro i. rewrite in_app_iff, setdiff1d_In. unfold arange. rewrite in_seq.
    split.
    + intros [H|[H _]]; [apply Hin in H; lia | exact H].
    + intro H. destruct (in_dec Nat.eq_dec i idx); [left|right]; tauto.
Qed.

(** ** Rows at indices *)

Lemma rows_at_app (a : list Row) (i j : list nat) :
  rows_at a (i ++ j) = rows_at a i ++ rows_at a j.
Proof. apply flat_map_app. Qed.

Lemma rows_at_perm (a : list Row) (i j : list nat) :
  Permutation i j -> Permutation (rows_at a i) (rows_at a j).
Proof. intro H. unfold rows_at. apply Permutation_flat_map, H. Qed.

Lemma rows_at_seq : forall (a pre : list Row),
  rows_at (pre ++ a) (seq (length pre) (length a)) = a.
Proof.
  induction a as [|x a IH]; intro pre; simpl; [reflexivity|].
  rewrite nth_error_app2, Nat.sub_diag by lia. simpl. f_equal.
  specialize (IH (pre ++ [x])). rewrite <- app_assoc, length_app in IH. simpl in IH.
  rewrite Nat.add_1_r in IH. exact IH.
Qed.

Lemma rows_at_all (a : list Row) : rows_at a (arange (length a)) = a.
Proof. exact (rows_at_seq a []). Qed.

(** The subsample rows and the other rows are the node's rows, each once. *)
Lemma rows_partition (a : list Row) (idx : list nat) :
  NoDup idx -> (forall i, In i idx -> i < length a) ->
  Permutation (rows_at a idx ++ rows_at a (setdiff1d (arange (length a)) idx)) a.
Proof.
  intros Hnd Hin. rewrite <- rows_at_app.
  rewrite <- (rows_at_all a) at 3. apply rows_at_perm, sample_and_rest; assumption.
Qed.

Lemma rows_at_length (a : list Row) (idx : list nat) :
  (forall i, In i idx -> i < length a) -> length (rows_at a idx) = length idx.
Proof.
  induction idx as [|i idx IH]; intro H; simpl; [reflexivity|].
  rewrite length_app, IH by (intros; apply H; right; assumption).
  destruct (nth_error a i) eqn:E; [reflexivity|].
  apply nth_error_None in E. specialize (H i (or_introl eq_refl)). lia.
Qed.

(** Indexing with indices in range returns the rows and touches nothing. *)
Lemma take_ok (a : list Row) (idx : list nat) (w : world Row) :
  (forall i, In i idx -> i < length a) ->
  take a idx w = (Ok (rows_at a idx), w).
Proof.
  induction idx as [|i idx IH]; intro H; simpl; [reflexivity|].
  unfold bind, getitem.
  destruct (nth_error a i) eqn:E.
  - simpl. unfold ret at 1. rewrite IH by (intros; apply H; right; assumption).
    reflexivity.
  - apply nth_error_None in E. specialize (H i (or_introl eq_refl)). lia.
Qed.

End Sampling.

(** ** The filtering rule *)

Section Filtering.

Variable Row : Type.
Variable dm : CollapsibleDistribution Row.
Variables lpi rpi : float.

Abbreviation fR := (filterRemaining dm lpi rpi).
Abbreviation fE := (filterRemaining_evals dm lpi rpi).

(** One more row at the end is scored against the sides as grown by the rows
    before it. *)
Lemma filterRemaining_snoc : forall (rows L R : list Row) (r : Row),
  fR (rows ++ [r]) L R =
    (if prefers_left dm lpi rpi (fst (fR rows L R)) (snd (fR rows L R)) r
     then (fst (fR rows L R) ++ [r], snd (fR rows L R))
     else (fst (fR rows L R), snd (fR rows L R) ++ [r])).
Proof.
  induction rows as [|x rows IH]; intros L R r; simpl.
  - destruct (prefers_left dm lpi rpi L R r); reflexivity.
  - destruct (prefers_left dm lpi rpi L R x); apply IH.
Qed.

Lemma filterRemaining_evals_snoc : forall (rows L R : list Row) (r : Row),
  fE (rows ++ [r]) L R =
    fE rows L R ++ [fst (fR rows L R) ++ [r]; snd (fR rows L R) ++ [r]].
Proof.
  induction rows as [|x rows IH]; intros L R r; simpl.
  - destruct (prefers_left dm lpi rpi L R r); reflexivity.
  - destruct (prefers_left dm lpi rpi L R x); simpl; do 2 f_equal; apply IH.
Qed.

(** The two sides only grow, and what they gain is the rows filtered. *)
Lemma filterRemaining_grows : forall (rows L R : list Row),
  exists Lx Rx,
    fR rows L R = (L ++ Lx, R ++ Rx) /\ Permutation (Lx ++ Rx) rows.
Proof.
  induction rows as [|x rows IH]; intros L R; simpl.
  - exists [], []. rewrite !app_nil_r. split; [reflexivity | constructor].
  - destruct (prefers_left dm lpi rpi L R x).
    + destruct (IH (L ++ [x]) R) as (Lx & Rx & E & P).
      exists (x :: Lx), Rx. rewrite E, <- app_assoc. simpl.
      split; [reflexivity | constructor; exact P].
    + destruct (IH L (R ++ [x])) as (Lx & Rx & E & P).
      exists Lx, (x :: Rx). rewrite E, <- app_assoc. simpl.
      split; [reflexivity|]. symmetry. apply Permutation_cons_app. symmetry. exact P.
Qed.

Lemma filterRemaining_perm (rows L R : list Row) :
  Permutation (fst (fR rows L R) ++ snd (fR rows L R)) (L ++ R ++ rows).
Proof.
  destruct (filterRemaining_grows rows L R) as (Lx & Rx & E & P).
  rewrite E. simpl. rewrite <- P, <- !app_assoc.
  apply Permutation_app_head. rewrite !app_assoc.
  apply Permutation_app_tail, Permutation_app_comm.
Qed.

(** Every row set handed to the data model holds at least one row; it is a
    side as grown so far with the row under consideration appended. *)
Lemma filterRemaining_evals_nonempty : forall (rows L R : list Row),
  Forall (fun rs => exists side r, rs = side ++ [r]) (fE rows L R).
Proof.
  induction rows as [|x rows IH]; intros L R; simpl; [constructor|].
  constructor; [exists L, x; reflexivity|].
  constructor; [exists R, x; reflexivity|].
  destruct (prefers_left dm lpi rpi L R x); apply IH.
Qed.

(** Batch and incremental assignment hold the same rows, though not on the
    same sides. *)
Lemma filterBatch_perm : forall (rows L0 R0 L R : list Row),
  Permutation (fst (filterBatch dm lpi rpi rows L0 R0 L R) ++
               snd (filterBatch dm lpi rpi rows L0 R0 L R)) (L ++ R ++ rows).
Proof.
  induction rows as [|x rows IH]; intros L0 R0 L R; simpl.
  - rewrite app_nil_r. reflexivity.
  - destruct (prefers_left dm lpi rpi L0 R0 x); rewrite IH.
    + rewrite <- app_assoc. apply Permutation_app_head. simpl.
      apply Permutation_middle.
    + apply Permutation_app_head. rewrite <- app_assoc. reflexivity.
Qed.

End Filtering.

(** ** [filter_data] against the rule *)

Section FilterData.

Variable Row : Type.

(** A node as [subsample_bhc] leaves it, with a probe tree that has both
    children: [filter_data] returns, with the two sides the rule gives from the
    seeds over the non-sampled rows in ascending index order; it calls the data
    model on the rule's row sets and touches nothing else of the world. *)
Lemma for_each_filter_body
  (D : list Row) (dm : CollapsibleDistribution Row) (alpha : float) (n : nat)
  (rk : option float) (sidx : option (list nat)) (lc rc : Node Row) :
  forall (idx : list nat) (L R : list Row) (w : world Row),
    (forall i, In i idx -> i < length D) ->
    for_each idx (@filter_body Row)
      (mkRbhcNode D dm alpha n rk sidx (Some (mkBhc (mkRoot (Some lc) (Some rc))))
         (Some L) (Some R)) w
    = (Ok (mkRbhcNode D dm alpha n rk sidx (Some (mkBhc (mkRoot (Some lc) (Some rc))))
             (Some (fst (filterRemaining dm (log_pi lc) (log_pi rc) (rows_at D idx) L R)))
             (Some (snd (filterRemaining dm (log_pi lc) (log_pi rc) (rows_at D idx) L R)))),
       mkWorld (rng w) (stdout w)
         (lml_calls w ++
            filterRemaining_evals dm (log_pi lc) (log_pi rc) (rows_at D idx) L R)
         (bhc_calls w)).
Proof.
  induction idx as [|i idx IH]; intros L R w Hin.
  - simpl. rewrite app_nil_r. destruct w; reflexivity.
  - assert (Hi : i < length D) by (apply Hin; left; reflexivity).
    destruct (nth_error D i) as [row|] eqn:E;
      [|apply nth_error_None in E; lia].
    assert (Hrows : rows_at D (i :: idx) = row :: rows_at D idx)
      by (unfold rows_at; simpl; rewrite E; reflexivity).
    rewrite Hrows. cbn [for_each filterRemaining filterRemaining_evals].
    unfold bind at 1. unfold filter_body, bind, attr, ret, getitem, call_lml.
    cbn [sub_bhc root_node left_child right_child left_data right_data data data_model].
    rewrite E. unfold ret. cbn [fst snd lml_calls rng stdout bhc_calls].
    unfold prefers_left, leftScore, rightScore, vstack.
    destruct (PrimFloat.leb _ _);
      unfold set_left_data, set_right_data;
      cbn [data data_model crp_alpha nk log_rk sub_indexes sub_bhc left_data right_data];
      rewrite IH by (intros; apply Hin; right; assumption);
      cbn [lml_calls rng stdout bhc_calls]; rewrite <- !app_assoc; reflexivity.
Qed.

Lemma filter_data_ok
  (D : list Row) (dm : CollapsibleDistribution Row) (alpha : float)
  (rk : option float) (sidx : list nat) (lc rc : Node Row)
  (ld0 rd0 : option (list Row)) (w : world Row) :
  let rows := rows_at D (setdiff1d (arange (length D)) sidx) in
  let res := filterRemaining dm (log_pi lc) (log_pi rc) rows (Node_data lc) (Node_data rc) in
  filter_data
    (mkRbhcNode D dm alpha (length D) rk (Some sidx)
       (Some (mkBhc (mkRoot (Some lc) (Some rc)))) ld0 rd0) w
  = (Ok (mkRbhcNode D dm alpha (length D) rk (Some sidx)
           (Some (mkBhc (mkRoot (Some lc) (Some rc)))) (Some (fst res)) (Some (snd res))),
     mkWorld (rng w) (stdout w)
       (lml_calls w ++
          filterRemaining_evals dm (log_pi lc) (log_pi rc) rows (Node_data lc) (Node_data rc))
       (bhc_calls w)).
Proof.
  intros rows res. unfold filter_data, bind, attr, ret.
  cbn [sub_bhc root_node left_child right_child sub_indexes nk].
  unfold set_left_data, set_right_data.
  cbn [data data_model crp_alpha nk log_rk sub_indexes sub_bhc left_data right_data].
  apply for_each_filter_body.
  intros i Hi. apply setdiff1d_In in Hi. destruct Hi as [Hi _].
  apply in_seq in Hi. lia.
Qed.

End FilterData.

(** ** One call of [as_split] *)

Section AsSplit.

Variable Row : Type.
Variable bhc : list Row -> CollapsibleDistribution Row -> float -> bhc_tree Row.

(** [subsample_bhc] with a sample size within the population: the indices are
    drawn, their rows clustered, the node's [sub_indexes] and [sub_bhc] set. *)
Lemma subsample_bhc_ok
  (D : list Row) (dm : CollapsibleDistribution Row) (alpha : float)
  (rk : option float) (si : option (list nat)) (sb : option (bhc_tree Row))
  (ld rd : option (list Row)) (m : Z) (w : world Row) :
  (0 <= m <= Z.of_nat (length D))%Z ->
  exists idx,
    subsample_bhc bhc (mkRbhcNode D dm alpha (length D) rk si sb ld rd) m w
    = (Ok (mkRbhcNode D dm alpha (length D) rk (Some idx)
             (Some (bhc (rows_at D idx) dm alpha)) ld rd),
       mkWorld (advance (length D - 1) (rng w)) (stdout w) (lml_calls w)
         (bhc_calls w ++ [rows_at D idx])) /\
    length idx = Z.to_nat m /\ NoDup idx /\ (forall i, In i idx -> i < length D).
Proof.
  intro Hm.
  destruct (random_choice_ok (length D) w Hm) as (idx & E & Hl & Hnd & Hr).
  exists idx. split; [|auto].
  unfold subsample_bhc, bind. cbn [nk data data_model crp_alpha]. rewrite E.
  rewrite take_ok by exact Hr. unfold call_bhc, ret, set_sub. reflexivity.
Qed.

(** [subsample_bhc] with a sample size above the population: the sampler
    refuses, before any index is drawn and before any clustering. *)
Lemma subsample_bhc_too_large (self : rbhc_Node Row) (m : Z) (w : world Row) :
  (Z.of_nat (nk self) < m)%Z ->
  subsample_bhc bhc self m w
  = (Raise (if (long_max <? m)%Z && negb (Nat.eqb (nk self) 0)
            then OverflowError else ValueError), w).
Proof.
  intro H. unfold subsample_bhc, bind.
  rewrite random_choice_too_large by (unfold arange; rewrite length_seq; exact H).
  unfold arange. rewrite length_seq. reflexivity.
Qed.

(** The terminal branch: the node's count is at most [sub_size]. *)
Lemma as_split_terminal (self : rbhc_Node Row) (m : Z) (w : world Row) :
  (Z.of_nat (nk self) <= m)%Z ->
  as_split bhc self m w
  = (Ok (self, (false, BhcTree (bhc (data self) (data_model self) (crp_alpha self)))),
     mkWorld (rng w) (stdout w ++ [str_of_nat (nk self)]) (lml_calls w)
       (bhc_calls w ++ [data self])).
Proof.
  intro H. unfold as_split, bind, print.
  destruct (Z.ltb_spec m (Z.of_nat (nk self))) as [Hlt|_]; [lia|].
  reflexivity.
Qed.

(** The splitting branch, when the probe tree has both children. *)
Lemma as_split_splitting
  (D : list Row) (dm : CollapsibleDistribution Row) (alpha : float)
  (m : Z) (w : world Row) :
  (0 <= m < Z.of_nat (length D))%Z ->
  exists idx t,
    length idx = Z.to_nat m /\ NoDup idx /\ (forall i, In i idx -> i < length D) /\
    t = bhc (rows_at D idx) dm alpha /\
    forall lc rc,
      left_child (root_node t) = Some lc ->
      right_child (root_node t) = Some rc ->
      let rows := rows_at D (setdiff1d (arange (length D)) idx) in
      let res := filterRemaining dm (log_pi lc) (log_pi rc) rows
                   (Node_data lc) (Node_data rc) in
      as_split bhc (rbhc_Node_init D dm alpha) m w
      = (Ok (mkRbhcNode D dm alpha (length D) None (Some idx) (Some t)
               (Some (fst res)) (Some (snd res)),
             (true, Children [rbhc_Node_init (fst res) dm alpha;
                              rbhc_Node_init (snd res) dm alpha])),
         mkWorld (advance (length D - 1) (rng w)) (stdout w ++ [str_of_nat (length D)])
           (lml_calls w ++
              filterRemaining_evals dm (log_pi lc) (log_pi rc) rows
                (Node_data lc) (Node_data rc))
           (bhc_calls w ++ [rows_at D idx])).
Proof.
  intros [H0 Hm].
  set (w1 := mkWorld (rng w) (stdout w ++ [str_of_nat (length D)])
               (lml_calls w) (bhc_calls w)).
  destruct (@subsample_bhc_ok D dm alpha None None None None None m w1)
    as (idx & E & Hl & Hnd & Hr); [lia|].
  exists idx, (bhc (rows_at D idx) dm alpha).
  repeat split; try assumption.
  intros lc rc Elc Erc rows res.
  unfold as_split, print, rbhc_Node_init. cbn [nk]. unfold bind at 1. fold w1.
  destruct (Z.ltb_spec m (Z.of_nat (length D))) as [_|Hge]; [|lia].
  unfold bind at 1. rewrite E.
  unfold bind at 1.
  destruct (bhc (rows_at D idx) dm alpha) as [[olc orc]] eqn:Et.
  cbn [root_node left_child right_child] in Elc, Erc. subst olc orc.
  rewrite filter_data_ok. fold rows. fold res.
  unfold bind, attr, ret. cbn [left_data right_data data_model crp_alpha].
  reflexivity.
Qed.

(** The splitting branch, when the probe tree is a single leaf: reading the
    data of its missing child fails. *)
Lemma as_split_no_children
  (D : list Row) (dm : CollapsibleDistribution Row) (alpha : float)
  (m : Z) (w : world Row) :
  (0 <= m < Z.of_nat (length D))%Z ->
  (forall rows, length rows = Z.to_nat m ->
     left_child (root_node (bhc rows dm alpha)) = None) ->
  exists w', as_split bhc (rbhc_Node_init D dm alpha) m w = (Raise AttributeError, w').
Proof.
  intros [H0 Hm] Hnone.
  set (w1 := mkWorld (rng w) (stdout w ++ [str_of_nat (length D)])
               (lml_calls w) (bhc_calls w)).
  destruct (@subsample_bhc_ok D dm alpha None None None None None m w1)
    as (idx & E & Hl & Hnd & Hr); [lia|].
  eexists. unfold as_split, print, rbhc_Node_init. cbn [nk]. unfold bind at 1. fold w1.
  destruct (Z.ltb_spec m (Z.of_nat (length D))) as [_|Hge]; [|lia].
  unfold bind at 1. rewrite E.
  unfold bind at 1. unfold filter_data, bind at 1, attr at 1, ret at 1.
  cbn [sub_bhc]. unfold bind at 1.
  rewrite Hnone by (rewrite rows_at_length; assumption).
  unfold attr at 1, raise. reflexivity.
Qed.

End AsSplit.

(** ** The recursive build *)

Section Build.

Variable Row : Type.
Variable bhc : list Row -> CollapsibleDistribution Row -> float -> bhc_tree Row.
Hypothesis bhc_ok : bhc_contract bhc.

Variable dm : CollapsibleDistribution Row.
Variable alpha : float.

(** With a subsample of two rows or more and an exact clusterer within its
    interface, a node larger than the subsample splits into two non-empty
    sides that hold its rows, each once. *)
Lemma as_split_partitions (D : list Row) (m : Z) (w : world Row) :
  (2 <= m < Z.of_nat (length D))%Z ->
  exists parent L R w',
    as_split bhc (rbhc_Node_init D dm alpha) m w
    = (Ok (parent, (true, Children [rbhc_Node_init L dm alpha;
                                    rbhc_Node_init R dm alpha])), w') /\
    data parent = D /\ nk parent = length D /\
    left_data parent = Some L /\ right_data parent = Some R /\
    Permutation (L ++ R) D /\ L <> [] /\ R <> [].
Proof.
  intros [H2 Hm].
  destruct (@as_split_splitting Row bhc D dm alpha m w)
    as (idx & t & Hl & Hnd & Hr & Et & Hsplit); [lia|].
  pose proof (bhc_ok (rows_at D idx) dm alpha) as Hc.
  assert (Hlen : length (rows_at D idx) = Z.to_nat m)
    by (rewrite rows_at_length; assumption).
  destruct (rows_at D idx) as [|x [|y sub]] eqn:Esub;
    [simpl in Hlen; lia | simpl in Hlen; lia |].
  destruct Hc as (lc & rc & Elc & Erc & Hln & Hrn & Hp).
  rewrite <- Et in Elc, Erc.
  specialize (Hsplit lc rc Elc Erc). cbv zeta in Hsplit.
  set (rows := rows_at D (setdiff1d (arange (length D)) idx)) in *.
  destruct (filterRemaining_grows dm (log_pi lc) (log_pi rc) rows
              (Node_data lc) (Node_data rc)) as (Lx & Rx & Eres & Hpx).
  pose proof (filterRemaining_perm dm (log_pi lc) (log_pi rc) rows
                (Node_data lc) (Node_data rc)) as Hperm.
  rewrite Eres in Hsplit, Hperm. cbn [fst snd] in Hsplit, Hperm.
  do 4 eexists. split; [exact Hsplit|].
  cbn [data nk left_data right_data]. repeat split.
  - rewrite Hperm, app_assoc, Hp, <- Esub. apply rows_partition; assumption.
  - intro E. apply app_eq_nil in E. destruct E as [E _]. exact (Hln E).
  - intro E. apply app_eq_nil in E. destruct E as [E _]. exact (Hrn E).
Qed.

(** With a subsample of one row, a node of two rows or more fails: the probe
    tree is a single leaf and has no children to read. *)
Lemma as_split_single_sample (D : list Row) (w : world Row) :
  (1 < Z.of_nat (length D))%Z ->
  exists w', as_split bhc (rbhc_Node_init D dm alpha) 1 w = (Raise AttributeError, w').
Proof.
  intro H. apply as_split_no_children; [lia|].
  intros rows Hlen. pose proof (bhc_ok rows dm alpha) as Hc.
  destruct rows as [|x [|y rows]]; simpl in Hlen; try discriminate.
  destruct Hc as [Hc _]. exact Hc.
Qed.

Variable m : Z.
Variable D0 : list Row.

Abbreviation self := (mkRbhc D0 dm alpha m).

(** The build of a node returns whenever the depth granted exceeds the node's
    row count: a tree of calls on the node itself, whose leaves hold the
    node's rows, each once, whose splits shrink and partition, and which has
    fewer splits than rows. *)
Lemma recursive_split_returns :
  (2 <= m)%Z ->
  forall (fuel : nat) (D : list Row) (w : world Row),
    length D < fuel ->
    exists t w',
      recursive_split bhc fuel self (rbhc_Node_init D dm alpha) w = (Ok t, w') /\
      data (node_of t) = D /\ nk (node_of t) = length D /\
      Permutation (leaf_rows t) D /\
      shrinking t /\ partitioning t /\
      splits t <= length D - 1 /\ leaves t = S (splits t).
Proof.
  intro Hm. induction fuel as [|fuel IH]; intros D w Hfuel; [lia|].
  cbn [recursive_split sub_size]. unfold bind at 1.
  destruct (Z.le_gt_cases (Z.of_nat (length D)) m) as [Hsmall|Hlarge].
  - rewrite as_split_terminal by exact Hsmall.
    unfold bind, print, ret. eexists _, _. split; [reflexivity|].
    cbn. repeat split; try reflexivity; lia.
  - destruct (@as_split_partitions D m w) as
      (parent & L & R & w1 & E & Hd & Hn & HL & HR & Hp & HLn & HRn); [lia|].
    rewrite E. cbn [child nth_error]. unfold bind at 1. unfold ret at 1.
    pose proof (Permutation_length Hp) as Hlen. rewrite length_app in Hlen.
    assert (0 < length L) by (destruct L; [congruence | simpl; lia]).
    assert (0 < length R) by (destruct R; [congruence | simpl; lia]).
    destruct (IH L w1) as (tl & w2 & El & Hdl & Hnl & Hpl & Hsl & Hql & Hcl & Hvl); [lia|].
    unfold bind at 1. rewrite El. unfold bind at 1. unfold ret at 1.
    destruct (IH R w2) as (tr & w3 & Er & Hdr & Hnr & Hpr & Hsr & Hqr & Hcr & Hvr); [lia|].
    unfold bind at 1. rewrite Er. unfold ret.
    eexists _, _. split; [reflexivity|].
    cbn [node_of leaf_rows shrinking partitioning splits leaves].
    rewrite Hdl, Hdr, Hnl, Hnr, Hn, Hd, Hpl, Hpr, Hvl, Hvr.
    repeat split; try assumption; try lia.
Qed.

End Build.

(** ** Frames *)

Section FrameLemmas.

Variable Row : Type.
Variable bhc : list Row -> CollapsibleDistribution Row -> float -> bhc_tree Row.


Lemma same_inputs_trans (a b c : rbhc_Node Row) :
  same_inputs a b -> same_inputs b c -> same_inputs a c.
Proof.
  unfold same_inputs. intros (A1 & A2 & A3 & A4 & A5) (B1 & B2 & B3 & B4 & B5).
  repeat split; congruence.
Qed.

Lemma appended_since_refl (l : list (list Row)) : appended_since l l.
Proof. exists []. rewrite app_nil_r. split; [reflexivity | constructor]. Qed.

Lemma appended_since_trans (l1 l2 l3 : list (list Row)) :
  appended_since l1 l2 -> appended_since l2 l3 -> appended_since l1 l3.
Proof.
  intros (n1 & E1 & F1) (n2 & E2 & F2). exists (n1 ++ n2).
  split; [rewrite E2, E1, app_assoc; reflexivity | apply Forall_app; split; assumption].
Qed.

Lemma appended_since_two (l : list (list Row)) (a b : list Row) (x : Row) :
  appended_since l ((l ++ [a ++ [x]]) ++ [b ++ [x]]).
Proof.
  exists [a ++ [x]; b ++ [x]]. rewrite <- app_assoc. split; [reflexivity|].
  repeat constructor; eexists _, _; reflexivity.
Qed.

Lemma appended_since_one (l : list (list Row)) (a : list Row) (x : Row) :
  appended_since l (l ++ [a ++ [x]]).
Proof.
  exists [a ++ [x]]. split; [reflexivity|].
  repeat constructor; eexists _, _; reflexivity.
Qed.

Lemma appended_since_nonempty (l l' : list (list Row)) :
  appended_since l l' ->
  exists new, l' = l ++ new /\ Forall (fun rows => rows <> []) new.
Proof.
  intros (new & E & F). exists new. split; [exact E|].
  eapply Forall_impl; [|exact F]. intros rows (side & row & ->).
  intro H. apply app_eq_nil in H. destruct H as [_ H]. discriminate H.
Qed.

Ltac frame_done :=
  cbn [fst snd rng stdout lml_calls bhc_calls];
  repeat split;
  try apply appended_since_refl; try apply appended_since_one;
  try apply appended_since_two;
  try discriminate;
  try (match goal with
       | H : Ok _ = Ok _ |- _ => inversion H; subst; clear H
       end; cbn; congruence).

Lemma filter_body_frame (self : rbhc_Node Row) (i : nat) (w : world Row) :
  filter_frame self w (filter_body self i w).
Proof.
  unfold filter_frame, filter_body, getitem, call_lml, vstack, bind, attr, ret, raise.
  destruct (sub_bhc self) as [t|] eqn:Et; [|frame_done].
  destruct (left_child (root_node t)) as [lc|]; [|frame_done].
  destruct (left_data self) as [ld|]; [|frame_done].
  destruct (nth_error (data self) i) as [row|]; [|frame_done].
  destruct (right_child (root_node t)) as [rc|]; [|frame_done].
  destruct (right_data self) as [rd|]; [|frame_done].
  cbv beta iota.
  match goal with
  | |- context [PrimFloat.leb ?a ?b] => destruct (PrimFloat.leb a b)
  end; frame_done.
Qed.

Lemma for_each_filter_frame : forall (idx : list nat) (self : rbhc_Node Row) (w : world Row),
  filter_frame self w (for_each idx (@filter_body Row) self w).
Proof.
  induction idx as [|i idx IH]; intros self w.
  - cbn. split; [reflexivity|]. split; [reflexivity|]. split; [reflexivity|].
    split; [apply appended_since_refl|].
    intros self' E. inversion E; subst. repeat split.
  - cbn [for_each]. unfold bind.
    pose proof (filter_body_frame self i w) as (B1 & B2 & B3 & B4 & B5).
    destruct (filter_body self i w) as [[s1| e |] w1]; cbn [fst snd] in *.
    + destruct (B5 s1 eq_refl) as (S1 & S2 & S3).
      destruct (IH s1 w1) as (I1 & I2 & I3 & I4 & I5).
      split; [congruence|]. split; [congruence|]. split; [congruence|].
      split; [eapply appended_since_trans; eassumption|].
      intros self' E. destruct (I5 _ E) as (T1 & T2 & T3).
      split; [eapply same_inputs_trans; eassumption|]. split; congruence.
    + repeat split; try assumption; discriminate.
    + repeat split; try assumption; discriminate.
Qed.

(** [filter_data] on any node, from any world. *)
Lemma filter_data_frame (self : rbhc_Node Row) (w : world Row) :
  filter_frame self w (filter_data self w).
Proof.
  unfold filter_data, bind at 1, attr at 1.
  destruct (sub_bhc self) as [t|] eqn:Et; cbn;
    [|repeat split; try apply appended_since_refl; discriminate].
  unfold bind at 1, attr at 1.
  destruct (left_child (root_node t)) as [lc|] eqn:Elc; cbn;
    [|repeat split; try apply appended_since_refl; discriminate].
  unfold bind at 1, attr at 1.
  destruct (right_child (root_node t)) as [rc|] eqn:Erc; cbn;
    [|repeat split; try apply appended_since_refl; discriminate].
  unfold bind at 1, attr at 1.
  destruct (sub_indexes self) as [idx|] eqn:Ei; cbn;
    [|repeat split; try apply appended_since_refl; discriminate].
  match goal with |- filter_frame _ _ (for_each ?l _ ?s ?w0) =>
    pose proof (for_each_filter_frame l s w0) as (F1 & F2 & F3 & F4 & F5) end.
  split; [exact F1|]. split; [exact F2|]. split; [exact F3|]. split; [exact F4|].
  intros self' E. destruct (F5 _ E) as (T1 & T2 & T3). cbn in T2, T3.
  split; [|split; congruence].
  destruct T1 as (A1 & A2 & A3 & A4 & A5). cbn in *. repeat split; assumption.
Qed.




Lemma extends_trans (l1 l2 l3 : list (list Row)) :
  extends l1 l2 -> extends l2 l3 -> extends l1 l3.
Proof. intros (a & ->) (b & ->). exists (a ++ b). rewrite app_assoc. reflexivity. Qed.



End FrameLemmas.

(** ** Reading a returned result back *)

Section Inversion.

Variable Row : Type.

Lemma bind_Ok_inv (A B : Type) (c : M Row A) (k : A -> M Row B)
  (w w' : world Row) (b : B) :
  bind c k w = (Ok b, w') ->
  exists a w1, c w = (Ok a, w1) /\ k a w1 = (Ok b, w').
Proof.
  unfold bind. destruct (c w) as [[a|e|] w1]; intro E; try discriminate.
  exists a, w1. split; [reflexivity | exact E].
Qed.

Lemma attr_Ok_inv (A : Type) (o : option A) (w w' : world Row) (a : A) :
  attr o w = (Ok a, w') -> o = Some a /\ w' = w.
Proof.
  destruct o as [x|]; cbn; intro E; inversion E; subst. split; reflexivity.
Qed.

End Inversion.

(** ** The cases of one call *)

Section Cases.

Variable Row : Type.
Variable bhc : list Row -> CollapsibleDistribution Row -> float -> bhc_tree Row.

(** [subsample_bhc] with a negative sample size: the sampler refuses, before
    any index is drawn and before any clustering. *)
Lemma subsample_bhc_negative (self : rbhc_Node Row) (m : Z) (w : world Row) :
  (m < 0)%Z ->
  subsample_bhc bhc self m w
  = (Raise (if (m <? long_min)%Z && negb (Nat.eqb (nk self) 0)
            then OverflowError else ValueError), w).
Proof.
  intro H. unfold subsample_bhc, bind.
  rewrite random_choice_negative by exact H.
  unfold arange. rewrite length_seq. reflexivity.
Qed.

(** A probe tree that lacks a child: [filter_data] fails on reading it, with
    no call of the data model made. *)
Lemma filter_data_missing_child (self : rbhc_Node Row) (t : bhc_tree Row)
  (w : world Row) :
  sub_bhc self = Some t ->
  left_child (root_node t) = None \/ right_child (root_node t) = None ->
  filter_data self w = (Raise AttributeError, w).
Proof.
  intros Et Hmiss. unfold filter_data, bind, attr, ret, raise. rewrite Et.
  destruct (left_child (root_node t)) as [lc|]; [|reflexivity].
  destruct Hmiss as [Hl|Hr]; [discriminate Hl|]. rewrite Hr. reflexivity.
Qed.

(** Every way a call of [as_split] can go, on a node whose count is the
    number of its rows, whatever its other attributes hold. *)
Lemma as_split_cases
  (D : list Row) (dm : CollapsibleDistribution Row) (alpha : float)
  (rk : option float) (si : option (list nat)) (sb : option (bhc_tree Row))
  (ld rd : option (list Row)) (m : Z) (w : world Row) :
  let node := mkRbhcNode D dm alpha (length D) rk si sb ld rd in
  let w0 := mkWorld (rng w) (stdout w ++ [str_of_nat (length D)])
              (lml_calls w) (bhc_calls w) in
  ((Z.of_nat (length D) <= m)%Z /\
   as_split bhc node m w
   = (Ok (node, (false, BhcTree (bhc D dm alpha))),
      mkWorld (rng w) (stdout w0) (lml_calls w) (bhc_calls w ++ [D]))) \/
  ((m < 0)%Z /\
   as_split bhc node m w
   = (Raise (if (m <? long_min)%Z && negb (Nat.eqb (length D) 0)
             then OverflowError else ValueError), w0)) \/
  ((0 <= m < Z.of_nat (length D))%Z /\
   exists idx,
     length idx = Z.to_nat m /\ NoDup idx /\ (forall i, In i idx -> i < length D) /\
     let t := bhc (rows_at D idx) dm alpha in
     let w1 := mkWorld (advance (length D - 1) (rng w)) (stdout w0) (lml_calls w)
                 (bhc_calls w ++ [rows_at D idx]) in
     match left_child (root_node t), right_child (root_node t) with
     | Some lc, Some rc =>
         let rows := rows_at D (setdiff1d (arange (length D)) idx) in
         let res := filterRemaining dm (log_pi lc) (log_pi rc) rows
                      (Node_data lc) (Node_data rc) in
         as_split bhc node m w
         = (Ok (mkRbhcNode D dm alpha (length D) rk (Some idx) (Some t)
                  (Some (fst res)) (Some (snd res)),
                (true, Children [rbhc_Node_init (fst res) dm alpha;
                                 rbhc_Node_init (snd res) dm alpha])),
            mkWorld (advance (length D - 1) (rng w)) (stdout w0)
              (lml_calls w ++
                 filterRemaining_evals dm (log_pi lc) (log_pi rc) rows
                   (Node_data lc) (Node_data rc))
              (bhc_calls w ++ [rows_at D idx]))
     | _, _ => as_split bhc node m w = (Raise AttributeError, w1)
     end).
Proof.
  intros node w0.
  destruct (Z.le_gt_cases (Z.of_nat (length D)) m) as [Hsmall|Hlarge].
  { left. split; [exact Hsmall|]. apply (as_split_terminal bhc node w). exact Hsmall. }
  right.
  assert (Estart : as_split bhc node m w =
    bind (subsample_bhc bhc node m) (fun p =>
    bind (filter_data p) (fun p =>
    bind (attr (left_data p)) (fun ld =>
    bind (attr (right_data p)) (fun rd =>
    ret (p, (true, Children [rbhc_Node_init ld (data_model p) (crp_alpha p);
                             rbhc_Node_init rd (data_model p) (crp_alpha p)])))))) w0).
  { unfold as_split, print, node. cbn [nk]. unfold bind at 1.
    destruct (Z.ltb_spec m (Z.of_nat (length D))) as [_|Hge]; [reflexivity | lia]. }
  destruct (Z.lt_ge_cases m 0) as [Hneg|Hpos].
  { left. split; [exact Hneg|]. rewrite Estart. unfold bind at 1.
    rewrite subsample_bhc_negative by exact Hneg. reflexivity. }
  right. split; [lia|].
  destruct (@subsample_bhc_ok Row bhc D dm alpha rk si sb ld rd m w0)
    as (idx & E & Hl & Hnd & Hr); [lia|].
  exists idx. split; [exact Hl|]. split; [exact Hnd|]. split; [exact Hr|].
  cbv zeta.
  destruct (bhc (rows_at D idx) dm alpha) as [[olc orc]] eqn:Et.
  cbn [root_node left_child right_child].
  assert (Estep : as_split bhc node m w =
    bind (filter_data (mkRbhcNode D dm alpha (length D) rk (Some idx)
                         (Some (mkBhc (mkRoot olc orc))) ld rd)) (fun p =>
    bind (attr (left_data p)) (fun ld =>
    bind (attr (right_data p)) (fun rd =>
    ret (p, (true, Children [rbhc_Node_init ld (data_model p) (crp_alpha p);
                             rbhc_Node_init rd (data_model p) (crp_alpha p)])))))
      (mkWorld (advance (length D - 1) (rng w)) (stdout w0) (lml_calls w)
         (bhc_calls w ++ [rows_at D idx]))).
  { rewrite Estart. unfold bind at 1. unfold node. rewrite E.
    reflexivity. }
  clear Estart.
  destruct olc as [lc|]; [destruct orc as [rc|]|]; rewrite Estep; unfold bind at 1.
  - rewrite filter_data_ok. unfold bind, attr, ret.
    cbn [left_data right_data data_model crp_alpha]. reflexivity.
  - rewrite (@filter_data_missing_child _ (mkBhc (mkRoot (Some lc) None)));
      [reflexivity | reflexivity | right; reflexivity].
  - rewrite (@filter_data_missing_child _ (mkBhc (mkRoot None orc)));
      [reflexivity | reflexivity | left; reflexivity].
Qed.

(** The same, for a node fresh from [__init__]. *)
Lemma as_split_init_cases
  (D : list Row) (dm : CollapsibleDistribution Row) (alpha : float)
  (m : Z) (w : world Row) :
  let node := rbhc_Node_init D dm alpha in
  let w0 := mkWorld (rng w) (stdout w ++ [str_of_nat (length D)])
              (lml_calls w) (bhc_calls w) in
  ((Z.of_nat (length D) <= m)%Z /\
   as_split bhc node m w
   = (Ok (node, (false, BhcTree (bhc D dm alpha))),
      mkWorld (rng w) (stdout w0) (lml_calls w) (bhc_calls w ++ [D]))) \/
  ((m < 0)%Z /\
   as_split bhc node m w
   = (Raise (if (m <? long_min)%Z && negb (Nat.eqb (length D) 0)
             then OverflowError else ValueError), w0)) \/
  ((0 <= m < Z.of_nat (length D))%Z /\
   exists idx,
     length idx = Z.to_nat m /\ NoDup idx /\ (forall i, In i idx -> i < length D) /\
     let t := bhc (rows_at D idx) dm alpha in
     let w1 := mkWorld (advance (length D - 1) (rng w)) (stdout w0) (lml_calls w)
                 (bhc_calls w ++ [rows_at D idx]) in
     match left_child (root_node t), right_child (root_node t) with
     | Some lc, Some rc =>
         let rows := rows_at D (setdiff1d (arange (length D)) idx) in
         let res := filterRemaining dm (log_pi lc) (log_pi rc) rows
                      (Node_data lc) (Node_data rc) in
         as_split bhc node m w
         = (Ok (mkRbhcNode D dm alpha (length D) None (Some idx) (Some t)
                  (Some (fst res)) (Some (snd res)),
                (true, Children [rbhc_Node_init (fst res) dm alpha;
                                 rbhc_Node_init (snd res) dm alpha])),
            mkWorld (advance (length D - 1) (rng w)) (stdout w0)
              (lml_calls w ++
                 filterRemaining_evals dm (log_pi lc) (log_pi rc) rows
                   (Node_data lc) (Node_data rc))
              (bhc_calls w ++ [rows_at D idx]))
     | _, _ => as_split bhc node m w = (Raise AttributeError, w1)
     end).
Proof. exact (as_split_cases D dm alpha None None None None None m w). Qed.

End Cases.

(** ** The instances *)

Lemma split_first_contract (Row : Type) : bhc_contract (@split_first Row).
Proof.
  intros rows dm alpha. destruct rows as [|x [|y rows]]; cbn.
  - exact I.
  - split; reflexivity.
  - eexists _, _. repeat split; try reflexivity; discriminate.
Qed.

(** * The claims *)

(** C1 (as amended).  Partition completeness: for every dataset, every
    subsample size of two or more and every exact clusterer within its
    interface, the build returns; the rows of its terminal leaves are the
    dataset, each row once; and at every split [left_data] and [right_data]
    are the two children's data and hold the node's rows, each once. *)
Theorem build_partitions_data (Row : Type)
  (bhc : list Row -> CollapsibleDistribution Row -> float -> bhc_tree Row)
  (D : list Row) (dm : CollapsibleDistribution Row) (alpha : float)
  (m : Z) (fuel : nat) (w : world Row) :
  bhc_contract bhc -> (2 <= m)%Z -> length D < fuel ->
  exists self t w',
    rbhc_init bhc fuel D dm alpha m w = (Ok (self, t), w') /\
    Permutation (leaf_rows t) D /\ partitioning t.
Proof.
  intros Hc Hm Hfuel.
  destruct (@recursive_split_returns Row bhc Hc dm alpha m D Hm fuel D w Hfuel)
    as (t & w' & E & _ & _ & Hp & _ & Hq & _).
  exists (mkRbhc D dm alpha m), t, w'.
  unfold rbhc_init, bind. rewrite E. repeat split; assumption.
Qed.

Lemma build_partitions_data_witness :
  bhc_contract (@split_first float) /\ (2 <= 2)%Z /\ length four_rows < 5 /\
  exists self t w',
    rbhc_init (@split_first float) 5 four_rows by_size 1%float 2 empty_world
      = (Ok (self, t), w') /\
    Permutation (leaf_rows t) four_rows /\ partitioning t.
Proof.
  assert (H1 : bhc_contract (@split_first float)) by apply split_first_contract.
  assert (H2 : (2 <= 2)%Z) by lia.
  assert (H3 : length four_rows < 5) by (simpl; lia).
  repeat split; try assumption.
  exact (@build_partitions_data float (@split_first float) four_rows by_size
           1%float 2%Z 5 empty_world H1 H2 H3).
Defined.

(** C1, as stated, fails for a subsample of one row: the exact clusterer
    returns a single leaf for it, [filter_data] finds no children to read the
    seeds from, and the build of two rows raises at any depth granted. *)
Lemma single_sample_build_fails :
  bhc_contract (@split_first float) /\
  fst (rbhc_init (@split_first float) 3 [1%float; 2%float] flat_model 1%float 1
         empty_world) = Raise AttributeError /\
  (forall fuel w,
     is_ok (fst (rbhc_init (@split_first float) fuel [1%float; 2%float] flat_model
                   1%float 1 w)) = false).
Proof.
  split; [apply split_first_contract|]. split; [reflexivity|].
  intros [|fuel] w; [reflexivity|].
  destruct (@as_split_single_sample float _ (@split_first_contract float) flat_model
              1%float [1%float; 2%float] w) as (w' & E); [simpl; lia|].
  unfold rbhc_init. cbn [recursive_split sub_size]. unfold bind. rewrite E.
  reflexivity.
Qed.

(** C3.  Termination bound: for every dataset of n rows, a positive subsample
    size and an exact clusterer within its interface, the build ends whenever
    the depth granted exceeds n.  When it returns, at most n calls took the
    splitting branch, and every split has two non-empty children, each
    smaller than its parent; the calls on the terminal branch are one more
    than those on the splitting branch.  It raises only for a subsample of
    one row, and then in the first call. *)
Theorem build_terminates (Row : Type)
  (bhc : list Row -> CollapsibleDistribution Row -> float -> bhc_tree Row)
  (D : list Row) (dm : CollapsibleDistribution Row) (alpha : float)
  (m : Z) (fuel : nat) (w : world Row) :
  bhc_contract bhc -> (1 <= m)%Z -> length D < fuel ->
  exists out w',
    rbhc_init bhc fuel D dm alpha m w = (out, w') /\
    match out with
    | Ok (_, t) => splits t <= length D /\ leaves t = S (splits t) /\ shrinking t
    | Raise e =>
        m = 1%Z /\ 1 <= length D /\
        rbhc_init bhc 1 D dm alpha m w = (Raise e, w')
    | OutOfFuel => False
    end.
Proof.
  intros Hc Hm Hfuel.
  destruct (Z.eq_dec m 1) as [->|Hne].
  - destruct fuel as [|fuel]; [lia|].
    destruct (Z.le_gt_cases (Z.of_nat (length D)) 1) as [Hsmall|Hlarge].
    + eexists _, _. unfold rbhc_init. cbn [recursive_split sub_size].
      unfold bind at 1 2. rewrite as_split_terminal by exact Hsmall.
      unfold bind, print, ret. split; [reflexivity|]. cbn.
      split; [lia|]. split; [reflexivity | exact I].
    + destruct (@as_split_single_sample Row bhc Hc dm alpha D w) as (w' & E); [lia|].
      exists (Raise AttributeError), w'.
      unfold rbhc_init. cbn [recursive_split sub_size]. unfold bind.
      rewrite E. repeat split; lia.
  - destruct (@recursive_split_returns Row bhc Hc dm alpha m D ltac:(lia) fuel D w Hfuel)
      as (t & w' & E & _ & _ & _ & Hs & _ & Hn & Hl).
    exists (Ok (mkRbhc D dm alpha m, t)), w'.
    unfold rbhc_init, bind. rewrite E. repeat split; [lia | exact Hl | exact Hs].
Qed.

Lemma build_terminates_witness :
  bhc_contract (@split_first float) /\ (1 <= 2)%Z /\ length four_rows < 5 /\
  exists out w',
    rbhc_init (@split_first float) 5 four_rows by_size 1%float 2 empty_world
      = (out, w') /\
    match out with
    | Ok (_, t) =>
        splits t <= length four_rows /\ leaves t = S (splits t) /\ shrinking t
    | Raise e =>
        2%Z = 1%Z /\ 1 <= length four_rows /\
        rbhc_init (@split_first float) 1 four_rows by_size 1%float 2 empty_world
          = (Raise e, w')
    | OutOfFuel => False
    end.
Proof.
  assert (H1 : bhc_contract (@split_first float)) by apply split_first_contract.
  assert (H2 : (1 <= 2)%Z) by lia.
  assert (H3 : length four_rows < 5) by (simpl; lia).
  repeat split; try assumption.
  exact (@build_terminates float (@split_first float) four_rows by_size
           1%float 2%Z 5 empty_world H1 H2 H3).
Defined.




(** C4.  The filtering rule: on a node with its subsample and probe tree,
    [filter_data] returns with the sides that the rule of section 4.2 gives
    from the seeds over the non-sampled rows.  The rule starts from the two
    seeds' rows; a row [r] coming after the rows [pre] joins the left side
    exactly when [log_pi_left + lml(left ++ [r]) >= log_pi_right +
    lml(right ++ [r])], with [left] and [right] as [pre] has grown them, and
    the right side otherwise; when the two scores are equal it joins the
    left. *)
Theorem filter_data_rule (Row : Type)
  (D : list Row) (dm : CollapsibleDistribution Row) (alpha : float)
  (rk : option float) (sidx : list nat) (lc rc : Node Row)
  (ld0 rd0 : option (list Row)) (w : world Row) :
  let self := mkRbhcNode D dm alpha (length D) rk (Some sidx)
                (Some (mkBhc (mkRoot (Some lc) (Some rc)))) ld0 rd0 in
  let rows := rows_at D (setdiff1d (arange (length D)) sidx) in
  let rule := fun rs => filterRemaining dm (log_pi lc) (log_pi rc) rs
                          (Node_data lc) (Node_data rc) in
  let lml := log_marginal_likelihood dm in
  (exists self' w',
     filter_data self w = (Ok self', w') /\
     left_data self' = Some (fst (rule rows)) /\
     right_data self' = Some (snd (rule rows))) /\
  rule [] = (Node_data lc, Node_data rc) /\
  (forall pre r,
     let left := fst (rule pre) in
     let right := snd (rule pre) in
     let left_prob := PrimFloat.add (log_pi lc) (lml (left ++ [r])) in
     let right_prob := PrimFloat.add (log_pi rc) (lml (right ++ [r])) in
     rule (pre ++ [r]) =
       (if PrimFloat.leb right_prob left_prob
        then (left ++ [r], right) else (left, right ++ [r])) /\
     (PrimFloat.eqb left_prob right_prob = true ->
      rule (pre ++ [r]) = (left ++ [r], right))).
Proof.
  intros self rows rule lml. split; [|split].
  - eexists _, _. split; [apply filter_data_ok|]. split; reflexivity.
  - reflexivity.
  - intros pre r left right left_prob right_prob.
    assert (E : rule (pre ++ [r]) =
                (if PrimFloat.leb right_prob left_prob
                 then (left ++ [r], right) else (left, right ++ [r])))
      by (unfold rule; rewrite filterRemaining_snoc; reflexivity).
    split; [exact E|].
    intro Htie. rewrite E, (float_eqb_geb Htie). reflexivity.
Qed.

(** C5.  The filtering is incremental: the row sets that [filter_data] hands
    to the data model are, for each non-sampled row in turn, the two sides as
    the rows before it have grown them, with that row appended; and the
    outcome differs from the batch assignment against the seeds alone (here
    on four rows with the first two sampled, under a likelihood that depends
    on the number of rows). *)
Theorem filter_data_incremental :
  (forall (Row : Type) (D : list Row) (dm : CollapsibleDistribution Row)
          (alpha : float) (rk : option float) (sidx : list nat) (lc rc : Node Row)
          (ld0 rd0 : option (list Row)) (w : world Row),
     let self := mkRbhcNode D dm alpha (length D) rk (Some sidx)
                   (Some (mkBhc (mkRoot (Some lc) (Some rc)))) ld0 rd0 in
     let rows := rows_at D (setdiff1d (arange (length D)) sidx) in
     let rule := fun rs => filterRemaining dm (log_pi lc) (log_pi rc) rs
                             (Node_data lc) (Node_data rc) in
     let evals := fun rs => filterRemaining_evals dm (log_pi lc) (log_pi rc) rs
                              (Node_data lc) (Node_data rc) in
     lml_calls (snd (filter_data self w)) = lml_calls w ++ evals rows /\
     forall pre r,
       evals (pre ++ [r]) =
         evals pre ++ [fst (rule pre) ++ [r]; snd (rule pre) ++ [r]]) /\
  (let lc := mkNode [1%float] 0%float in
   let rc := mkNode [2%float] 0%float in
   let self := mkRbhcNode four_rows by_size 1%float 4 None (Some [0; 1])
                 (Some (mkBhc (mkRoot (Some lc) (Some rc)))) None None in
   let self' := fst (filter_data self empty_world) in
   let w' := snd (filter_data self empty_world) in
   (exists s, self' = Ok s /\
      left_data s = Some [1%float; 3%float] /\
      right_data s = Some [2%float; 4%float]) /\
   lml_calls w' = [[1%float; 3%float]; [2%float; 3%float];
                   [1%float; 3%float; 4%float]; [2%float; 4%float]] /\
   filterBatch by_size 0%float 0%float [3%float; 4%float] [1%float] [2%float]
     [1%float] [2%float] = ([1%float; 3%float; 4%float], [2%float]) /\
   filterRemaining by_size 0%float 0%float [3%float; 4%float] [1%float] [2%float]
   <> filterBatch by_size 0%float 0%float [3%float; 4%float] [1%float] [2%float]
        [1%float] [2%float]).
Proof.
  split.
  - intros Row D dm alpha rk sidx lc rc ld0 rd0 w self rows rule evals. split.
    + unfold self. rewrite filter_data_ok. reflexivity.
    + intros pre r. apply filterRemaining_evals_snoc.
  - cbv zeta. split; [|split; [reflexivity|split; [reflexivity|]]].
    + eexists. split; [reflexivity|]. split; reflexivity.
    + cbn. intro E. inversion E.
Qed.





(** C7.  The filtering never calls [log_marginal_likelihood] on zero rows:
    whatever the node and the world, every row set [filter_data] hands to the
    data model is a side with one row appended.  And with a positive subsample
    size and an exact clusterer within its interface, the seeds that
    [filter_data] starts from, when the probe tree has them, are non-empty. *)
Theorem lml_never_on_empty (Row : Type)
  (bhc : list Row -> CollapsibleDistribution Row -> float -> bhc_tree Row) :
  (forall (self : rbhc_Node Row) (w : world Row),
     exists new,
       lml_calls (snd (filter_data self w)) = lml_calls w ++ new /\
       Forall (fun rows => rows <> []) new /\
       Forall (fun rows => exists side row, rows = side ++ [row]) new) /\
  (forall (D : list Row) (dm : CollapsibleDistribution Row) (alpha : float)
          (sub_size : Z) (w w1 : world Row) (p : rbhc_Node Row),
     bhc_contract bhc -> (1 <= sub_size)%Z ->
     subsample_bhc bhc (rbhc_Node_init D dm alpha) sub_size w = (Ok p, w1) ->
     forall t lc rc,
       sub_bhc p = Some t ->
       left_child (root_node t) = Some lc ->
       right_child (root_node t) = Some rc ->
       Node_data lc <> [] /\ Node_data rc <> []).
Proof.
  split.
  - intros self w.
    destruct (filter_data_frame self w) as (_ & _ & _ & H & _).
    destruct (appended_since_nonempty H) as (new & E & Hne).
    destruct H as (new' & E' & Hform).
    assert (new' = new) by (rewrite E in E'; apply app_inv_head in E'; congruence).
    subst new'. exists new. repeat split; assumption.
  - intros D dm alpha m w w1 p Hc Hm E t lc rc Et Elc Erc.
    destruct (Z.le_gt_cases m (Z.of_nat (length D))) as [Hle|Hgt].
    + destruct (@subsample_bhc_ok Row bhc D dm alpha None None None None None m w)
        as (idx & E' & Hl & _ & Hr); [lia|].
      unfold rbhc_Node_init in E. rewrite E' in E. inversion E; subst. clear E.
      cbn [sub_bhc] in Et. inversion Et; subst. clear Et.
      pose proof (Hc (rows_at D idx) dm alpha) as Hcon.
      assert (Hlen : length (rows_at D idx) = Z.to_nat m)
        by (rewrite rows_at_length; assumption).
      destruct (rows_at D idx) as [|x [|y sub]]; [simpl in Hlen; lia | |].
      * destruct Hcon as [Hn _]. congruence.
      * destruct Hcon as (lc' & rc' & El' & Er' & Hln & Hrn & _).
        rewrite Elc in El'. rewrite Erc in Er'. inversion El'; inversion Er'; subst.
        split; assumption.
    + rewrite subsample_bhc_too_large in E by (cbn; lia). discriminate E.
Qed.

Lemma lml_never_on_empty_witness :
  let p := mkRbhcNode four_rows by_size 1%float 4 None (Some [1; 2])
             (Some (split_first [2%float; 3%float] by_size 1%float)) None None in
  let w1 := mkWorld (advance 3 fresh) [] [] [[2%float; 3%float]] in
  bhc_contract (@split_first float) /\ (1 <= 2)%Z /\
  subsample_bhc (@split_first float) (rbhc_Node_init four_rows by_size 1%float) 2
    empty_world = (Ok p, w1) /\
  Node_data (mkNode [2%float] 0%float) <> [] /\
  Node_data (mkNode [3%float] 0%float) <> [].
Proof.
  intros p w1.
  assert (H1 : bhc_contract (@split_first float)) by apply split_first_contract.
  assert (H2 : (1 <= 2)%Z) by lia.
  assert (H3 : subsample_bhc (@split_first float)
                 (rbhc_Node_init four_rows by_size 1%float) 2 empty_world
               = (Ok p, w1)) by reflexivity.
  split; [exact H1|]. split; [exact H2|]. split; [exact H3|].
  exact (proj2 (@lml_never_on_empty float (@split_first float))
           four_rows by_size 1%float 2%Z empty_world w1 p H1 H2 H3
           (split_first [2%float; 3%float] by_size 1%float)
           (mkNode [2%float] 0%float) (mkNode [3%float] 0%float)
           eq_refl eq_refl eq_refl).
Defined.



(** C9.  The filtering is deterministic.  The non-sampled indices come in
    ascending order and depend on the set of sampled indices only; so two
    runs on the same data, the same set of sampled indices, the same seeds
    and [log_pi] values and the same data model, from whatever world and
    whatever the node's other attributes, both return, with the same
    [left_data] and the same [right_data], having scored the same row sets in
    the same order. *)
Theorem filter_data_deterministic (Row : Type)
  (D : list Row) (dm : CollapsibleDistribution Row) (alpha alpha' : float)
  (rk rk' : option float) (sidx sidx' : list nat) (lc rc : Node Row)
  (ld0 rd0 ld1 rd1 : option (list Row)) (w1 w2 : world Row) :
  (forall i, In i sidx <-> In i sidx') ->
  let tree := mkBhc (mkRoot (Some lc) (Some rc)) in
  let run1 := filter_data
                (mkRbhcNode D dm alpha (length D) rk (Some sidx) (Some tree) ld0 rd0) w1 in
  let run2 := filter_data
                (mkRbhcNode D dm alpha' (length D) rk' (Some sidx') (Some tree) ld1 rd1) w2 in
  let notsub := setdiff1d (arange (length D)) sidx in
  StronglySorted lt notsub /\
  setdiff1d (arange (length D)) sidx' = notsub /\
  exists s1 s2 L R evals,
    fst run1 = Ok s1 /\ fst run2 = Ok s2 /\
    left_data s1 = Some L /\ left_data s2 = Some L /\
    right_data s1 = Some R /\ right_data s2 = Some R /\
    lml_calls (snd run1) = lml_calls w1 ++ evals /\
    lml_calls (snd run2) = lml_calls w2 ++ evals /\
    evals = filterRemaining_evals dm (log_pi lc) (log_pi rc) (rows_at D notsub)
              (Node_data lc) (Node_data rc).
Proof.
  intros Hset tree run1 run2 notsub.
  split; [apply setdiff1d_sorted|].
  assert (Hns : setdiff1d (arange (length D)) sidx' = notsub)
    by (symmetry; apply setdiff1d_ext, Hset).
  split; [exact Hns|].
  unfold run1, run2, tree. rewrite !filter_data_ok. rewrite Hns. fold notsub.
  cbn [fst snd lml_calls].
  eexists _, _, _, _, _. repeat split; reflexivity.
Qed.

Lemma filter_data_deterministic_witness :
  let lc := mkNode [1%float] 0%float in
  let rc := mkNode [2%float] 0%float in
  let tree := mkBhc (mkRoot (Some lc) (Some rc)) in
  let run1 := filter_data
                (mkRbhcNode four_rows by_size 1%float (length four_rows) None
                   (Some [0; 1]) (Some tree) None None) empty_world in
  let run2 := filter_data
                (mkRbhcNode four_rows by_size 1%float (length four_rows) None
                   (Some [1; 0]) (Some tree) None None)
                (mkWorld (mkGen [7] 0) ["4"%string] [] []) in
  let notsub := setdiff1d (arange (length four_rows)) [0; 1] in
  (forall i, In i [0; 1] <-> In i [1; 0]) /\
  StronglySorted lt notsub /\
  setdiff1d (arange (length four_rows)) [1; 0] = notsub /\
  exists s1 s2 L R evals,
    fst run1 = Ok s1 /\ fst run2 = Ok s2 /\
    left_data s1 = Some L /\ left_data s2 = Some L /\
    right_data s1 = Some R /\ right_data s2 = Some R /\
    lml_calls (snd run1) = lml_calls empty_world ++ evals /\
    lml_calls (snd run2) = lml_calls (mkWorld (mkGen [7] 0) ["4"%string] [] []) ++ evals /\
    evals = filterRemaining_evals by_size (log_pi lc) (log_pi rc)
              (rows_at four_rows notsub) (Node_data lc) (Node_data rc).
Proof.
  intros lc rc tree run1 run2 notsub.
  assert (H : forall i, In i [0; 1] <-> In i [1; 0]) by (intro i; simpl; tauto).
  split; [exact H|].
  exact (@filter_data_deterministic float four_rows by_size 1%float 1%float
           None None [0; 1] [1; 0] lc rc None None None None
           empty_world (mkWorld (mkGen [7] 0) ["4"%string] [] []) H).
Defined.

(** C10.  A node with no rows: for any [sub_size] [m] that is not negative,
    [as_split] takes the terminal branch and hands the empty data to the
    exact clusterer as it is, with no check of its own; the build of an empty
    dataset is that one call. *)
Theorem empty_node_is_terminal (Row : Type)
  (bhc : list Row -> CollapsibleDistribution Row -> float -> bhc_tree Row)
  (dm : CollapsibleDistribution Row) (alpha : float) (m : Z)
  (fuel : nat) (w : world Row) :
  (0 <= m)%Z ->
  let node := rbhc_Node_init [] dm alpha in
  nk node = 0 /\
  as_split bhc node m w
  = (Ok (node, (false, BhcTree (bhc [] dm alpha))),
     mkWorld (rng w) (stdout w ++ ["0"%string]) (lml_calls w) (bhc_calls w ++ [[]])) /\
  rbhc_init bhc (S fuel) [] dm alpha m w
  = (Ok (mkRbhc [] dm alpha m, Leaf node (BhcTree (bhc [] dm alpha))),
     mkWorld (rng w) (stdout w ++ ["0"%string; "reached the leaves"%string])
       (lml_calls w) (bhc_calls w ++ [[]])).
Proof.
  intros Hm node. split; [reflexivity|].
  assert (E : as_split bhc node m w
              = (Ok (node, (false, BhcTree (bhc [] dm alpha))),
                 mkWorld (rng w) (stdout w ++ ["0"%string]) (lml_calls w)
                   (bhc_calls w ++ [[]])))
    by (apply as_split_terminal; cbn; lia).
  split; [exact E|].
  unfold rbhc_init. cbn [recursive_split sub_size]. unfold bind at 1 2.
  fold node. rewrite E. unfold bind, print, ret.
  cbn [rng stdout lml_calls bhc_calls]. rewrite <- app_assoc. reflexivity.
Qed.

Lemma empty_node_is_terminal_witness :
  let node := rbhc_Node_init [] by_size 1%float in
  (0 <= 50)%Z /\
  nk node = 0 /\
  as_split (@split_first float) node 50 empty_world
  = (Ok (node, (false, BhcTree (split_first [] by_size 1%float))),
     mkWorld fresh ["0"%string] [] [[]]) /\
  rbhc_init (@split_first float) 1 [] by_size 1%float 50 empty_world
  = (Ok (mkRbhc [] by_size 1%float 50,
         Leaf node (BhcTree (split_first [] by_size 1%float))),
     mkWorld fresh ["0"%string; "reached the leaves"%string] [] [[]]).
Proof.
  intro node.
  assert (H : (0 <= 50)%Z) by lia.
  split; [exact H|].
  exact (@empty_node_is_terminal float (@split_first float) by_size 1%float 50%Z
           0 empty_world H).
Defined.

(** * Further properties *)

(** ** Counting *)

Section Counting.

Variable Row : Type.

Lemma filterRemaining_evals_length (dm : CollapsibleDistribution Row) (lpi rpi : float) :
  forall (rows L R : list Row),
    length (filterRemaining_evals dm lpi rpi rows L R) = 2 * length rows.
Proof.
  induction rows as [|x rows IH]; intros L R; simpl; [reflexivity|].
  destruct (prefers_left dm lpi rpi L R x); rewrite IH; lia.
Qed.

Lemma setdiff1d_length (n : nat) (idx : list nat) :
  NoDup idx -> (forall i, In i idx -> i < n) ->
  length (setdiff1d (arange n) idx) = n - length idx.
Proof.
  intros Hnd Hin. pose proof (Permutation_length (sample_and_rest Hnd Hin)) as H.
  rewrite length_app in H. unfold arange in H at 2. rewrite length_seq in H. lia.
Qed.

Lemma setdiff1d_in_range (n : nat) (idx : list nat) (i : nat) :
  In i (setdiff1d (arange n) idx) -> i < n.
Proof.
  intro H. apply setdiff1d_In in H. destruct H as [H _].
  apply in_seq in H. lia.
Qed.

(** The non-sampled rows of a node are as many as the node has rows beyond
    the subsample. *)
Lemma non_sampled_length (D : list Row) (idx : list nat) :
  NoDup idx -> (forall i, In i idx -> i < length D) ->
  length (rows_at D (setdiff1d (arange (length D)) idx)) = length D - length idx.
Proof.
  intros Hnd Hin. rewrite rows_at_length by apply setdiff1d_in_range.
  apply setdiff1d_length; assumption.
Qed.

End Counting.

(** ** The tree of a build that returns *)

Section Trees.

Variable Row : Type.
Variable bhc : list Row -> CollapsibleDistribution Row -> float -> bhc_tree Row.
Variable dm : CollapsibleDistribution Row.
Variable alpha : float.
Variable m : Z.
Variable D0 : list Row.

(** Whatever the exact clusterer does, a build that returns has gone the way
    its tree of calls says. *)
Lemma recursive_split_tree : forall (fuel : nat) (D : list Row) (w w' : world Row)
  (t : call_tree Row),
  recursive_split bhc fuel (mkRbhc D0 dm alpha m) (rbhc_Node_init D dm alpha) w
    = (Ok t, w') ->
  data (node_of t) = D /\
  stdout w' = stdout w ++ printed t /\
  bhc_calls w' = bhc_calls w ++ clustered t /\
  length (lml_calls w') = length (lml_calls w) + 2 * filtered t /\
  every_call (fun n => data_model n = dm /\ crp_alpha n = alpha /\
                       nk n = length (data n) /\ log_rk n = None) t /\
  every_leaf (fun n c => n = rbhc_Node_init (data n) dm alpha /\
                         (Z.of_nat (nk n) <= m)%Z /\
                         c = BhcTree (bhc (data n) dm alpha)) t /\
  every_split (fun n => (0 <= m < Z.of_nat (nk n))%Z /\
                 exists idx,
                   sub_indexes n = Some idx /\ length idx = Z.to_nat m /\
                   NoDup idx /\ (forall i, In i idx -> i < nk n) /\
                   sub_bhc n = Some (bhc (rows_at (data n) idx) dm alpha)) t.
Proof.
  induction fuel as [|fuel IH]; intros D w w' t H; [discriminate H|].
  cbn [recursive_split sub_size] in H.
  apply bind_Ok_inv in H. destruct H as ([p [b c]] & w1 & Eas & H).
  destruct (as_split_init_cases bhc D dm alpha m w)
    as [[Hs E]|[[Hn E]|[Hm (idx & Hl & Hnd & Hr & E)]]].
  - rewrite E in Eas. inversion Eas; subst. clear Eas.
    unfold bind, print, ret in H. inversion H; subst. clear H.
    cbn. rewrite <- app_assoc. repeat split; try reflexivity; try lia.
  - rewrite E in Eas. discriminate Eas.
  - cbv zeta in E.
    destruct (left_child (root_node (bhc (rows_at D idx) dm alpha))) as [lc|] eqn:Elc;
      [|rewrite E in Eas; discriminate Eas].
    destruct (right_child (root_node (bhc (rows_at D idx) dm alpha))) as [rc|] eqn:Erc;
      [|rewrite E in Eas; discriminate Eas].
    rewrite E in Eas. inversion Eas; subst p b c w1. clear Eas E.
    cbn [child nth_error] in H.
    apply bind_Ok_inv in H. destruct H as (c0 & w2 & E0 & H).
    unfold ret in E0. inversion E0; subst c0 w2. clear E0.
    apply bind_Ok_inv in H. destruct H as (l & w2 & El & H).
    apply bind_Ok_inv in H. destruct H as (c1 & w3 & E1 & H).
    unfold ret in E1. inversion E1; subst c1 w3. clear E1.
    apply bind_Ok_inv in H. destruct H as (r & w3 & Er & H).
    unfold ret in H. inversion H; subst t w'. clear H.
    destruct (IH _ _ _ _ El) as (L1 & L2 & L3 & L4 & L5 & L6 & L7).
    destruct (IH _ _ _ _ Er) as (R1 & R2 & R3 & R4 & R5 & R6 & R7).
    cbn [node_of printed clustered filtered every_call every_leaf every_split
         data nk sub_indexes sub_bhc data_model crp_alpha log_rk].
    cbn [stdout bhc_calls lml_calls] in L2, L3, L4.
    split; [reflexivity|].
    split; [rewrite R2, L2, <- !app_assoc; reflexivity|].
    split; [rewrite R3, L3, <- !app_assoc; reflexivity|].
    split.
    { rewrite R4, L4, length_app, filterRemaining_evals_length,
        non_sampled_length by assumption. lia. }
    split; [repeat split; assumption|].
    split; [split; assumption|].
    split; [|split; assumption].
    split; [lia|]. exists idx. repeat split; assumption.
Qed.

End Trees.

(** ** The build, read from its tree *)

Lemma printed_length (Row : Type) (t : call_tree Row) :
  length (printed t) = splits t + 2 * leaves t.
Proof.
  induction t as [n c|n l IHl r IHr]; cbn; [reflexivity|].
  rewrite length_app, IHl, IHr. lia.
Qed.

Lemma four_rows_run :
  rbhc_init (@split_first float) 5 four_rows by_size 1%float 2 empty_world
  = (Ok (mkRbhc four_rows by_size 1%float 2, four_rows_tree), four_rows_world).
Proof. vm_compute. reflexivity. Qed.

(** X1.  What a build prints: whatever the exact clusterer, a build that
    returns has printed, after what was there, the count of every node it was
    called on, in the order of the calls (a node before its children, the
    left child's calls before the right child's), and the line "reached the
    leaves" right after the count of every node it did not split: one line
    for each split and two for each leaf. *)
Theorem build_prints (Row : Type)
  (bhc : list Row -> CollapsibleDistribution Row -> float -> bhc_tree Row)
  (D : list Row) (dm : CollapsibleDistribution Row) (alpha : float) (m : Z)
  (fuel : nat) (w w' : world Row) (self : rbhc Row) (t : call_tree Row) :
  rbhc_init bhc fuel D dm alpha m w = (Ok (self, t), w') ->
  stdout w' = stdout w ++ printed t /\
  length (printed t) = splits t + 2 * leaves t /\
  nk (node_of t) = length D.
Proof.
  intro H. unfold rbhc_init in H. apply bind_Ok_inv in H.
  destruct H as (t0 & w1 & E & H). unfold ret in H. inversion H; subst. clear H.
  destruct (@recursive_split_tree Row bhc dm alpha m D fuel D w w' t E)
    as (T1 & T2 & _ & _ & T5 & _).
  split; [exact T2|]. split; [apply printed_length|].
  destruct t as [n c|n l r]; cbn in *.
  - destruct T5 as (_ & _ & T & _). rewrite T, T1. reflexivity.
  - destruct T5 as ((_ & _ & T & _) & _). rewrite T, T1. reflexivity.
Qed.

Lemma build_prints_witness :
  rbhc_init (@split_first float) 5 four_rows by_size 1%float 2 empty_world
  = (Ok (mkRbhc four_rows by_size 1%float 2, four_rows_tree), four_rows_world) /\
  stdout four_rows_world = stdout empty_world ++ printed four_rows_tree /\
  length (printed four_rows_tree)
  = splits four_rows_tree + 2 * leaves four_rows_tree /\
  nk (node_of four_rows_tree) = length four_rows.
Proof.
  split; [exact four_rows_run|].
  exact (@build_prints float (@split_first float) four_rows by_size 1%float 2%Z 5
           empty_world four_rows_world _ four_rows_tree four_rows_run).
Defined.

(** X2.  A negative [sub_size]: every count is above it, so the build of any
    dataset, the empty one included, takes the splitting branch at the root
    and fails there with the sampler's error, having printed the root's
    count and before any index is drawn, any clustering or any call of the
    data model.  The error is a ValueError whenever [sub_size] fits a C long,
    and an OverflowError when it does not and the dataset has rows. *)
Theorem negative_sub_size_raises (Row : Type)
  (bhc : list Row -> CollapsibleDistribution Row -> float -> bhc_tree Row)
  (D : list Row) (dm : CollapsibleDistribution Row) (alpha : float) (m : Z)
  (fuel : nat) (w : world Row) :
  (m < 0)%Z ->
  exists e,
    rbhc_init bhc (S fuel) D dm alpha m w
    = (Raise e,
       mkWorld (rng w) (stdout w ++ [str_of_nat (length D)]) (lml_calls w)
         (bhc_calls w)) /\
    (e = ValueError \/ e = OverflowError) /\
    ((long_min <= m)%Z -> e = ValueError) /\
    ((m < long_min)%Z -> 0 < length D -> e = OverflowError).
Proof.
  intro Hm. unfold rbhc_init. cbn [recursive_split sub_size]. unfold bind at 1 2.
  destruct (as_split_init_cases bhc D dm alpha m w)
    as [[Hs _]|[[_ E]|[Hpos _]]]; [lia | | lia].
  rewrite E. eexists. split; [reflexivity|].
  destruct (Z.ltb_spec m long_min) as [Hlo|Hlo];
    destruct (Nat.eqb_spec (length D) 0) as [Hz|Hnz]; cbn [andb negb].
  - split; [left; reflexivity|]. split; [reflexivity | intros _ Hpos; lia].
  - split; [right; reflexivity|]. split; [intro Hfit; lia | reflexivity].
  - split; [left; reflexivity|]. split; [reflexivity | intros Hbig; lia].
  - split; [left; reflexivity|]. split; [reflexivity | intros Hbig; lia].
Qed.

Lemma negative_sub_size_raises_witness :
  (-1 < 0)%Z /\
  exists e,
    rbhc_init (@split_first float) 1 four_rows by_size 1%float (-1) empty_world
    = (Raise e, mkWorld fresh ["4"%string] [] []) /\
    (e = ValueError \/ e = OverflowError) /\
    ((long_min <= -1)%Z -> e = ValueError) /\
    ((-1 < long_min)%Z -> 0 < length four_rows -> e = OverflowError).
Proof.
  assert (H : (-1 < 0)%Z) by lia.
  split; [exact H|].
  exact (@negative_sub_size_raises float (@split_first float) four_rows by_size
           1%float (-1)%Z 0 empty_world H).
Defined.

(** X3.  The ways [as_split] fails on a node fresh from [__init__].  The
    sampler's errors come for a negative [sub_size] only: a ValueError
    whenever it fits a C long, an OverflowError only when it does not, and
    then whenever the node has rows.  An AttributeError comes only when
    [sub_size] is within [0, n) and the probe tree of the sampled rows lacks
    a child.  There is never an IndexError or a TypeError, and never a
    failure for lack of depth.  In every case the call has printed the node's
    count, and nothing else. *)
Theorem as_split_failures (Row : Type)
  (bhc : list Row -> CollapsibleDistribution Row -> float -> bhc_tree Row)
  (D : list Row) (dm : CollapsibleDistribution Row) (alpha : float) (m : Z)
  (w : world Row) :
  let r := as_split bhc (rbhc_Node_init D dm alpha) m w in
  (fst r = Raise ValueError \/ fst r = Raise OverflowError <-> (m < 0)%Z) /\
  ((long_min <= m < 0)%Z -> fst r = Raise ValueError) /\
  (fst r = Raise OverflowError -> (m < long_min)%Z) /\
  ((m < long_min)%Z -> 0 < length D -> fst r = Raise OverflowError) /\
  (fst r = Raise AttributeError ->
   (0 <= m < Z.of_nat (length D))%Z /\
   exists idx,
     length idx = Z.to_nat m /\ NoDup idx /\ (forall i, In i idx -> i < length D) /\
     (left_child (root_node (bhc (rows_at D idx) dm alpha)) = None \/
      right_child (root_node (bhc (rows_at D idx) dm alpha)) = None) /\
     lml_calls (snd r) = lml_calls w /\
     bhc_calls (snd r) = bhc_calls w ++ [rows_at D idx]) /\
  fst r <> Raise IndexError /\ fst r <> Raise TypeError /\ fst r <> OutOfFuel /\
  stdout (snd r) = stdout w ++ [str_of_nat (length D)].
Proof.
  intro r. subst r.
  assert (Hmin : (long_min < 0)%Z) by (unfold long_min; lia).
  destruct (as_split_init_cases bhc D dm alpha m w)
    as [[Hs E]|[[Hn E]|[Hm (idx & Hl & Hnd & Hr & E)]]].
  - rewrite E. cbn [fst snd stdout].
    split; [split; [intros [H|H]; discriminate H | lia]|].
    split; [lia|]. split; [discriminate|]. split; [lia|].
    split; [discriminate|]. repeat split; discriminate.
  - rewrite E. cbn [fst snd stdout].
    destruct (Z.ltb_spec m long_min) as [Hlo|Hlo];
      destruct (Nat.eqb_spec (length D) 0) as [Hz|Hnz]; cbn [andb negb].
    + split; [split; [intros _; exact Hn | intros _; left; reflexivity]|].
      split; [lia|]. split; [discriminate|]. split; [lia|].
      split; [discriminate|]. repeat split; discriminate.
    + split; [split; [intros _; exact Hn | intros _; right; reflexivity]|].
      split; [lia|]. split; [intros _; exact Hlo|]. split; [reflexivity|].
      split; [discriminate|]. repeat split; discriminate.
    + split; [split; [intros _; exact Hn | intros _; left; reflexivity]|].
      split; [reflexivity|]. split; [discriminate|]. split; [lia|].
      split; [discriminate|]. repeat split; discriminate.
    + split; [split; [intros _; exact Hn | intros _; left; reflexivity]|].
      split; [reflexivity|]. split; [discriminate|]. split; [lia|].
      split; [discriminate|]. repeat split; discriminate.
  - cbv zeta in E.
    destruct (left_child (root_node (bhc (rows_at D idx) dm alpha))) as [lc|] eqn:Elc;
      [destruct (right_child (root_node (bhc (rows_at D idx) dm alpha)))
         as [rc|] eqn:Erc|];
      rewrite E; cbn [fst snd stdout lml_calls bhc_calls].
    + split; [split; [intros [H|H]; discriminate H | lia]|].
      split; [lia|]. split; [discriminate|]. split; [lia|].
      split; [discriminate|]. repeat split; discriminate.
    + split; [split; [intros [H|H]; discriminate H | lia]|].
      split; [lia|]. split; [discriminate|]. split; [lia|].
      split; [|repeat split; discriminate].
      intros _. split; [exact Hm|]. exists idx. rewrite Elc, Erc.
      repeat split; try assumption. right; reflexivity.
    + split; [split; [intros [H|H]; discriminate H | lia]|].
      split; [lia|]. split; [discriminate|]. split; [lia|].
      split; [|repeat split; discriminate].
      intros _. split; [exact Hm|]. exists idx. rewrite Elc.
      repeat split; try assumption. left; reflexivity.
Qed.

Lemma every_split_impl (Row : Type) (P Q : rbhc_Node Row -> Prop) (t : call_tree Row) :
  (forall n, P n -> Q n) -> every_split P t -> every_split Q t.
Proof.
  intro H. induction t as [n c|n l IHl r IHr]; cbn; [trivial|].
  intros (Hn & Hl & Hr). repeat split; auto.
Qed.

Lemma clustered_length (Row : Type) (t : call_tree Row) :
  every_split (fun n => sub_indexes n <> None) t ->
  length (clustered t) = splits t + leaves t.
Proof.
  induction t as [n c|n l IHl r IHr]; cbn; [reflexivity|].
  intros (Hn & Hl & Hr). rewrite !length_app, IHl, IHr by assumption.
  destruct (sub_indexes n); [cbn; lia | congruence].
Qed.

(** X4.  The nodes of a build: whatever the exact clusterer, every node a
    returning build was called on carries the data model and the
    concentration the build was given, a count equal to the number of its
    rows, and no [log_rk]; the root holds the dataset; and a node that was
    not split is as [__init__] made it, with none of the attributes of a
    split assigned. *)
Theorem build_nodes_uniform (Row : Type)
  (bhc : list Row -> CollapsibleDistribution Row -> float -> bhc_tree Row)
  (D : list Row) (dm : CollapsibleDistribution Row) (alpha : float) (m : Z)
  (fuel : nat) (w w' : world Row) (self : rbhc Row) (t : call_tree Row) :
  rbhc_init bhc fuel D dm alpha m w = (Ok (self, t), w') ->
  data (node_of t) = D /\
  every_call (fun n => data_model n = dm /\ crp_alpha n = alpha /\
                       nk n = length (data n) /\ log_rk n = None) t /\
  every_leaf (fun n _ => n = rbhc_Node_init (data n) dm alpha) t.
Proof.
  intro H. unfold rbhc_init in H. apply bind_Ok_inv in H.
  destruct H as (t0 & w1 & E & H). unfold ret in H. inversion H; subst. clear H.
  destruct (@recursive_split_tree Row bhc dm alpha m D fuel D w w' t E)
    as (T1 & _ & _ & _ & T5 & T6 & _).
  split; [exact T1|]. split; [exact T5|].
  clear - T6. induction t as [n c|n l IHl r IHr]; cbn in *.
  - destruct T6 as [T _]. exact T.
  - destruct T6 as [Tl Tr]. split; auto.
Qed.

Lemma build_nodes_uniform_witness :
  rbhc_init (@split_first float) 5 four_rows by_size 1%float 2 empty_world
  = (Ok (mkRbhc four_rows by_size 1%float 2, four_rows_tree), four_rows_world) /\
  data (node_of four_rows_tree) = four_rows /\
  every_call (fun n => data_model n = by_size /\ crp_alpha n = 1%float /\
                       nk n = length (data n) /\ log_rk n = None) four_rows_tree /\
  every_leaf (fun n _ => n = rbhc_Node_init (data n) by_size 1%float) four_rows_tree.
Proof.
  split; [exact four_rows_run|].
  exact (@build_nodes_uniform float (@split_first float) four_rows by_size 1%float
           2%Z 5 empty_world four_rows_world _ four_rows_tree four_rows_run).
Defined.

(** X5.  Where a build splits and where it stops: whatever the exact
    clusterer, in a build that returns every node that was not split has at
    most [sub_size] rows and came back with the [bhc] tree of exactly its
    rows; every node that was split has more than [sub_size] rows, with
    [sub_size] not negative, a subsample of [sub_size] distinct indices within
    its rows, and as probe tree the [bhc] tree of the rows at those
    indices. *)
Theorem build_splits_above_sub_size (Row : Type)
  (bhc : list Row -> CollapsibleDistribution Row -> float -> bhc_tree Row)
  (D : list Row) (dm : CollapsibleDistribution Row) (alpha : float) (m : Z)
  (fuel : nat) (w w' : world Row) (self : rbhc Row) (t : call_tree Row) :
  rbhc_init bhc fuel D dm alpha m w = (Ok (self, t), w') ->
  every_leaf (fun n c => (Z.of_nat (nk n) <= m)%Z /\
                         c = BhcTree (bhc (data n) dm alpha)) t /\
  every_split (fun n => (0 <= m < Z.of_nat (nk n))%Z /\
                 exists idx,
                   sub_indexes n = Some idx /\ length idx = Z.to_nat m /\
                   NoDup idx /\ (forall i, In i idx -> i < nk n) /\
                   sub_bhc n = Some (bhc (rows_at (data n) idx) dm alpha)) t.
Proof.
  intro H. unfold rbhc_init in H. apply bind_Ok_inv in H.
  destruct H as (t0 & w1 & E & H). unfold ret in H. inversion H; subst. clear H.
  destruct (@recursive_split_tree Row bhc dm alpha m D fuel D w w' t E)
    as (_ & _ & _ & _ & _ & T6 & T7).
  split; [|exact T7].
  clear - T6. induction t as [n c|n l IHl r IHr]; cbn in *.
  - destruct T6 as (_ & T). exact T.
  - destruct T6 as [Tl Tr]. split; auto.
Qed.

Lemma build_splits_above_sub_size_witness :
  rbhc_init (@split_first float) 5 four_rows by_size 1%float 2 empty_world
  = (Ok (mkRbhc four_rows by_size 1%float 2, four_rows_tree), four_rows_world) /\
  every_leaf (fun n c => (Z.of_nat (nk n) <= 2)%Z /\
                         c = BhcTree (split_first (data n) by_size 1%float))
    four_rows_tree /\
  every_split (fun n => (0 <= 2 < Z.of_nat (nk n))%Z /\
                 exists idx,
                   sub_indexes n = Some idx /\ length idx = Z.to_nat 2 /\
                   NoDup idx /\ (forall i, In i idx -> i < nk n) /\
                   sub_bhc n = Some (split_first (rows_at (data n) idx) by_size 1%float))
    four_rows_tree.
Proof.
  split; [exact four_rows_run|].
  exact (@build_splits_above_sub_size float (@split_first float) four_rows by_size
           1%float 2%Z 5 empty_world four_rows_world _ four_rows_tree four_rows_run).
Defined.

(** X6.  The cost and the sizes of one split: whatever the exact clusterer,
    a call of [as_split] that splits a node of n rows with a subsample of m
    has called the data model exactly 2 (n - m) times, twice for each
    non-sampled row, and has called [bhc] once; the two children hold
    together as many rows as the two seeds and the n - m non-sampled rows. *)
Theorem split_cost (Row : Type)
  (bhc : list Row -> CollapsibleDistribution Row -> float -> bhc_tree Row)
  (D : list Row) (dm : CollapsibleDistribution Row) (alpha : float) (m : Z)
  (w w' : world Row) (p : rbhc_Node Row) (c : children_t Row) :
  as_split bhc (rbhc_Node_init D dm alpha) m w = (Ok (p, (true, c)), w') ->
  length (lml_calls w') = length (lml_calls w) + 2 * (length D - Z.to_nat m) /\
  length (bhc_calls w') = S (length (bhc_calls w)) /\
  exists t lc rc L R,
    sub_bhc p = Some t /\
    left_child (root_node t) = Some lc /\ right_child (root_node t) = Some rc /\
    c = Children [rbhc_Node_init L dm alpha; rbhc_Node_init R dm alpha] /\
    length L + length R
    = length (Node_data lc) + length (Node_data rc) + (length D - Z.to_nat m).
Proof.
  intro H.
  destruct (as_split_init_cases bhc D dm alpha m w)
    as [[Hs E]|[[Hn E]|[Hm (idx & Hl & Hnd & Hr & E)]]].
  - rewrite E in H. discriminate H.
  - rewrite E in H. discriminate H.
  - cbv zeta in E.
    destruct (left_child (root_node (bhc (rows_at D idx) dm alpha))) as [lc|] eqn:Elc;
      [|rewrite E in H; discriminate H].
    destruct (right_child (root_node (bhc (rows_at D idx) dm alpha))) as [rc|] eqn:Erc;
      [|rewrite E in H; discriminate H].
    rewrite E in H. inversion H; subst. clear H E.
    cbn [lml_calls bhc_calls sub_bhc].
    assert (Hrows : length (rows_at D (setdiff1d (arange (length D)) idx))
                    = length D - Z.to_nat m)
      by (rewrite non_sampled_length, Hl by assumption; reflexivity).
    split; [rewrite length_app, filterRemaining_evals_length, Hrows; reflexivity|].
    split; [rewrite length_app; cbn; lia|].
    eexists _, lc, rc, _, _. split; [reflexivity|].
    split; [exact Elc|]. split; [exact Erc|]. split; [reflexivity|].
    pose proof (Permutation_length
                  (filterRemaining_perm dm (log_pi lc) (log_pi rc)
                     (rows_at D (setdiff1d (arange (length D)) idx))
                     (Node_data lc) (Node_data rc))) as Hp.
    rewrite !length_app, Hrows in Hp. lia.
Qed.

Lemma split_cost_witness :
  let r := as_split (@split_first float) (rbhc_Node_init four_rows by_size 1%float) 2
             empty_world in
  exists p c,
    r = (Ok (p, (true, c)), snd r) /\
    length (lml_calls (snd r))
    = length (lml_calls empty_world) + 2 * (length four_rows - Z.to_nat 2) /\
    length (bhc_calls (snd r)) = S (length (bhc_calls empty_world)) /\
    exists t lc rc L R,
      sub_bhc p = Some t /\
      left_child (root_node t) = Some lc /\ right_child (root_node t) = Some rc /\
      c = Children [rbhc_Node_init L by_size 1%float; rbhc_Node_init R by_size 1%float] /\
      length L + length R
      = length (Node_data lc) + length (Node_data rc)
        + (length four_rows - Z.to_nat 2).
Proof.
  intro r. eexists _, _.
  assert (H : r = (Ok (_, (true, _)), snd r)) by reflexivity.
  split; [exact H|].
  exact (@split_cost float (@split_first float) four_rows by_size 1%float 2%Z
           empty_world (snd r) _ _ H).
Defined.

(** X7.  The calls a build makes: whatever the exact clusterer, a build that
    returns has called [bhc] once for every node it was called on, in the
    order of the calls, on the rows of the subsample at a split and on all
    the node's rows at a leaf; and it has called the data model twice for
    every row it filtered. *)
Theorem build_calls (Row : Type)
  (bhc : list Row -> CollapsibleDistribution Row -> float -> bhc_tree Row)
  (D : list Row) (dm : CollapsibleDistribution Row) (alpha : float) (m : Z)
  (fuel : nat) (w w' : world Row) (self : rbhc Row) (t : call_tree Row) :
  rbhc_init bhc fuel D dm alpha m w = (Ok (self, t), w') ->
  bhc_calls w' = bhc_calls w ++ clustered t /\
  length (clustered t) = splits t + leaves t /\
  length (lml_calls w') = length (lml_calls w) + 2 * filtered t.
Proof.
  intro H. unfold rbhc_init in H. apply bind_Ok_inv in H.
  destruct H as (t0 & w1 & E & H). unfold ret in H. inversion H; subst. clear H.
  destruct (@recursive_split_tree Row bhc dm alpha m D fuel D w w' t E)
    as (_ & _ & T3 & T4 & _ & _ & T7).
  split; [exact T3|]. split; [|exact T4].
  apply clustered_length. eapply every_split_impl; [|exact T7].
  intros n (_ & idx & Ei & _). rewrite Ei. discriminate.
Qed.

Lemma build_calls_witness :
  rbhc_init (@split_first float) 5 four_rows by_size 1%float 2 empty_world
  = (Ok (mkRbhc four_rows by_size 1%float 2, four_rows_tree), four_rows_world) /\
  bhc_calls four_rows_world = bhc_calls empty_world ++ clustered four_rows_tree /\
  length (clustered four_rows_tree) = splits four_rows_tree + leaves four_rows_tree /\
  length (lml_calls four_rows_world)
  = length (lml_calls empty_world) + 2 * filtered four_rows_tree.
Proof.
  split; [exact four_rows_run|].
  exact (@build_calls float (@split_first float) four_rows by_size 1%float 2%Z 5
           empty_world four_rows_world _ four_rows_tree four_rows_run).
Defined.

(** ** The filtering keeps the order of the rows *)

Section Stable.

Variable Row : Type.
Variable dm : CollapsibleDistribution Row.
Variables lpi rpi : float.

Lemma pick_length_sum : forall (mask : list bool) (rows : list Row),
  length mask = length rows ->
  length (pick true mask rows) + length (pick false mask rows) = length rows.
Proof.
  induction mask as [|b mask IH]; intros [|r rows] H; cbn in *; try discriminate;
    [reflexivity|].
  injection H as H. specialize (IH rows H). destruct b; cbn; lia.
Qed.

Lemma filterRemaining_stable : forall (rows L R : list Row),
  exists mask,
    length mask = length rows /\
    filterRemaining dm lpi rpi rows L R
    = (L ++ pick true mask rows, R ++ pick false mask rows).
Proof.
  induction rows as [|x rows IH]; intros L R.
  - exists []. cbn. rewrite !app_nil_r. split; reflexivity.
  - cbn [filterRemaining]. destruct (prefers_left dm lpi rpi L R x).
    + destruct (IH (L ++ [x]) R) as (mask & Hl & E).
      exists (true :: mask). cbn. rewrite E, <- app_assoc.
      split; [f_equal; exact Hl | reflexivity].
    + destruct (IH L (R ++ [x])) as (mask & Hl & E).
      exists (false :: mask). cbn. rewrite E, <- app_assoc.
      split; [f_equal; exact Hl | reflexivity].
Qed.

End Stable.

(** X8.  The filtering is a stable partition: on a node with its subsample
    and a probe tree with both children, [filter_data] returns with
    [left_data] the left seed's rows followed by some of the non-sampled rows
    and [right_data] the right seed's rows followed by the others, each side
    keeping its rows in ascending order of their index in the node's data;
    the seeds' own rows are neither reordered nor dropped. *)
Theorem filter_data_stable (Row : Type)
  (D : list Row) (dm : CollapsibleDistribution Row) (alpha : float)
  (rk : option float) (sidx : list nat) (lc rc : Node Row)
  (ld0 rd0 : option (list Row)) (w : world Row) :
  let self := mkRbhcNode D dm alpha (length D) rk (Some sidx)
                (Some (mkBhc (mkRoot (Some lc) (Some rc)))) ld0 rd0 in
  let notsub := setdiff1d (arange (length D)) sidx in
  let rows := rows_at D notsub in
  StronglySorted lt notsub /\
  length rows = length notsub /\
  exists mask s w',
    length mask = length rows /\
    filter_data self w = (Ok s, w') /\
    left_data s = Some (Node_data lc ++ pick true mask rows) /\
    right_data s = Some (Node_data rc ++ pick false mask rows) /\
    length (pick true mask rows) + length (pick false mask rows) = length rows.
Proof.
  intros self notsub rows.
  split; [apply setdiff1d_sorted|].
  split; [apply rows_at_length, setdiff1d_in_range|].
  destruct (filterRemaining_stable dm (log_pi lc) (log_pi rc) rows
              (Node_data lc) (Node_data rc)) as (mask & Hl & E).
  exists mask. eexists _, _. split; [exact Hl|].
  split; [apply filter_data_ok|]. fold notsub. fold rows. rewrite E.
  cbn [left_data right_data fst snd].
  split; [reflexivity|]. split; [reflexivity|]. apply pick_length_sum, Hl.
Qed.

(** ** The subsample *)

(** X9.  What [subsample_bhc] leaves on a node fresh from [__init__] when it
    returns: [sub_size] is within [0, n]; [sub_indexes] holds exactly
    [sub_size] indices, all distinct and all within the node's rows;
    [sub_bhc] is the [bhc] tree of the rows at those indices, in the order
    drawn; [bhc] was called once, on those rows; and the node's data and its
    [left_data] and [right_data] are untouched. *)
Theorem subsample_bhc_sample (Row : Type)
  (bhc : list Row -> CollapsibleDistribution Row -> float -> bhc_tree Row)
  (D : list Row) (dm : CollapsibleDistribution Row) (alpha : float) (m : Z)
  (w w' : world Row) (p : rbhc_Node Row) :
  subsample_bhc bhc (rbhc_Node_init D dm alpha) m w = (Ok p, w') ->
  (0 <= m <= Z.of_nat (length D))%Z /\
  exists idx,
    p = mkRbhcNode D dm alpha (length D) None (Some idx)
          (Some (bhc (rows_at D idx) dm alpha)) None None /\
    Z.of_nat (length idx) = m /\ NoDup idx /\ (forall i, In i idx -> i < length D) /\
    length (rows_at D idx) = length idx /\
    bhc_calls w' = bhc_calls w ++ [rows_at D idx] /\
    stdout w' = stdout w /\ lml_calls w' = lml_calls w.
Proof.
  intro H.
  destruct (Z.lt_ge_cases m 0) as [Hneg|Hpos];
    [rewrite subsample_bhc_negative in H by exact Hneg; discriminate H|].
  destruct (Z.le_gt_cases m (Z.of_nat (length D))) as [Hle|Hgt];
    [|rewrite subsample_bhc_too_large in H by (cbn; lia); discriminate H].
  split; [lia|].
  destruct (@subsample_bhc_ok Row bhc D dm alpha None None None None None m w)
    as (idx & E & Hl & Hnd & Hr); [lia|].
  unfold rbhc_Node_init in H. rewrite E in H. inversion H; subst. clear H.
  exists idx. split; [reflexivity|]. split; [lia|].
  split; [exact Hnd|]. split; [exact Hr|].
  split; [apply rows_at_length, Hr|]. repeat split.
Qed.

Lemma subsample_bhc_sample_witness :
  let p := mkRbhcNode four_rows by_size 1%float 4 None (Some [1; 2])
             (Some (split_first [2%float; 3%float] by_size 1%float)) None None in
  let w' := mkWorld (advance 3 fresh) [] [] [[2%float; 3%float]] in
  subsample_bhc (@split_first float) (rbhc_Node_init four_rows by_size 1%float) 2
    empty_world = (Ok p, w') /\
  (0 <= 2 <= Z.of_nat (length four_rows))%Z /\
  exists idx,
    p = mkRbhcNode four_rows by_size 1%float (length four_rows) None (Some idx)
          (Some (split_first (rows_at four_rows idx) by_size 1%float)) None None /\
    Z.of_nat (length idx) = 2%Z /\ NoDup idx /\
    (forall i, In i idx -> i < length four_rows) /\
    length (rows_at four_rows idx) = length idx /\
    bhc_calls w' = bhc_calls empty_world ++ [rows_at four_rows idx] /\
    stdout w' = stdout empty_world /\ lml_calls w' = lml_calls empty_world.
Proof.
  intros p w'.
  assert (H : subsample_bhc (@split_first float)
                (rbhc_Node_init four_rows by_size 1%float) 2 empty_world
              = (Ok p, w')) by reflexivity.
  split; [exact H|].
  exact (@subsample_bhc_sample float (@split_first float) four_rows by_size 1%float
           2%Z empty_world w' p H).
Defined.

(** ** What [as_split] returns, read back *)

Lemma as_split_Ok_inv (Row : Type)
  (bhc : list Row -> CollapsibleDistribution Row -> float -> bhc_tree Row)
  (self p : rbhc_Node Row) (m : Z) (w w' : world Row) (b : bool)
  (c : children_t Row) :
  as_split bhc self m w = (Ok (p, (b, c)), w') ->
  (b = true /\ (m < Z.of_nat (nk self))%Z /\
   exists L R,
     left_data p = Some L /\ right_data p = Some R /\
     c = Children [rbhc_Node_init L (data_model p) (crp_alpha p);
                   rbhc_Node_init R (data_model p) (crp_alpha p)]) \/
  (b = false /\ (Z.of_nat (nk self) <= m)%Z /\ p = self /\
   c = BhcTree (bhc (data self) (data_model self) (crp_alpha self))).
Proof.
  intro E. destruct (Z.lt_ge_cases m (Z.of_nat (nk self))) as [Hlt|Hge].
  - left. unfold as_split in E. apply bind_Ok_inv in E. destruct E as (u & w0 & _ & E).
    destruct (Z.ltb_spec m (Z.of_nat (nk self))) as [_|Hge]; [|lia].
    apply bind_Ok_inv in E. destruct E as (p1 & w1 & _ & E).
    apply bind_Ok_inv in E. destruct E as (p2 & w2 & _ & E).
    apply bind_Ok_inv in E. destruct E as (ld & w3 & El & E).
    apply bind_Ok_inv in E. destruct E as (rd & w4 & Er & E).
    apply attr_Ok_inv in El, Er. destruct El as [El _], Er as [Er _].
    unfold ret in E. inversion E; subst.
    split; [reflexivity|]. split; [exact Hlt|]. exists ld, rd. repeat split; assumption.
  - right. rewrite as_split_terminal in E by exact Hge. inversion E; subst.
    repeat split. exact Hge.
Qed.

(** ** [log_rk] plays no part in a split *)

Section SetRk.

Variable Row : Type.
Variable bhc : list Row -> CollapsibleDistribution Row -> float -> bhc_tree Row.
Variable v : float.

Lemma on_ok_bind (A A' B B' : Type) (f : A -> A') (g : B -> B')
  (c : M Row A) (c' : M Row A') (k : A -> M Row B) (k' : A' -> M Row B')
  (w : world Row) :
  c' w = on_ok f (c w) ->
  (forall a w1, k' (f a) w1 = on_ok g (k a w1)) ->
  bind c' k' w = on_ok g (bind c k w).
Proof.
  intros Hc Hk. unfold bind. rewrite Hc. unfold on_ok at 1.
  destruct (c w) as [[a|e|] w1]; cbn [fst snd]; [apply Hk | reflexivity | reflexivity].
Qed.

Lemma filter_body_set_rk (self : rbhc_Node Row) (i : nat) (w : world Row) :
  filter_body (set_rk self v) i w
  = on_ok (fun p => set_rk p v) (filter_body self i w).
Proof.
  unfold filter_body, getitem, call_lml, vstack, bind, attr, ret, raise, on_ok.
  cbn [sub_bhc left_data right_data data data_model set_rk].
  destruct (sub_bhc self) as [t|]; [|reflexivity].
  destruct (left_child (root_node t)) as [lc|]; [|reflexivity].
  destruct (left_data self) as [ld|]; [|reflexivity].
  destruct (nth_error (data self) i) as [row|]; [|reflexivity].
  destruct (right_child (root_node t)) as [rc|]; [|reflexivity].
  destruct (right_data self) as [rd|]; [|reflexivity].
  cbv beta iota.
  match goal with
  | |- context [PrimFloat.leb ?a ?b] => destruct (PrimFloat.leb a b)
  end; reflexivity.
Qed.

Lemma for_each_set_rk : forall (idx : list nat) (self : rbhc_Node Row) (w : world Row),
  for_each idx (@filter_body Row) (set_rk self v) w
  = on_ok (fun p => set_rk p v) (for_each idx (@filter_body Row) self w).
Proof.
  induction idx as [|i idx IH]; intros self w; [reflexivity|].
  cbn [for_each]. apply on_ok_bind with (f := fun p => set_rk p v).
  - apply filter_body_set_rk.
  - intros a w1. apply IH.
Qed.

Lemma attr_on_ok (A : Type) (o : option A) (w : world Row) :
  attr o w = on_ok (fun x => x) (attr o w).
Proof. destruct o; reflexivity. Qed.

Lemma filter_data_set_rk (self : rbhc_Node Row) (w : world Row) :
  filter_data (set_rk self v) w = on_ok (fun p => set_rk p v) (filter_data self w).
Proof.
  unfold filter_data. cbn [sub_bhc set_rk].
  apply on_ok_bind with (f := fun x => x); [apply attr_on_ok|]. intros t w1.
  apply on_ok_bind with (f := fun x => x); [apply attr_on_ok|]. intros lc w2.
  apply on_ok_bind with (f := fun x => x); [apply attr_on_ok|]. intros rc w3.
  cbn [sub_indexes set_right_data set_left_data nk].
  apply on_ok_bind with (f := fun x => x); [apply attr_on_ok|]. intros idx w4.
  match goal with
  | |- for_each ?l _ ?s ?w0 = on_ok _ (for_each _ _ ?s' _) =>
      change s with (set_rk s' v)
  end.
  apply for_each_set_rk.
Qed.

Lemma subsample_bhc_set_rk (self : rbhc_Node Row) (m : Z) (w : world Row) :
  subsample_bhc bhc (set_rk self v) m w
  = on_ok (fun p => set_rk p v) (subsample_bhc bhc self m w).
Proof.
  unfold subsample_bhc, on_ok, bind. cbn [nk data data_model crp_alpha set_rk].
  destruct (random_choice (arange (nk self)) m w) as [[idx|e|] w1]; try reflexivity.
  destruct (take (data self) idx w1) as [[rs|e|] w2]; reflexivity.
Qed.

End SetRk.

(** X11.  [log_rk] plays no part in a split: [as_split] on a node whose
    [log_rk] has been set with [set_rk] goes exactly as on the node without
    it, in the world it leaves as in what it returns, except that the node
    handed back carries the [log_rk]; the children are the same, and have
    none. *)
Theorem as_split_ignores_log_rk (Row : Type)
  (bhc : list Row -> CollapsibleDistribution Row -> float -> bhc_tree Row)
  (self : rbhc_Node Row) (v : float) (m : Z) (w : world Row) :
  as_split bhc (set_rk self v) m w
  = on_ok (fun res => (set_rk (fst res) v, snd res)) (as_split bhc self m w) /\
  (forall p b l, fst (as_split bhc (set_rk self v) m w) = Ok (p, (b, Children l)) ->
     log_rk p = Some v /\ Forall (fun child => log_rk child = None) l).
Proof.
  assert (E : as_split bhc (set_rk self v) m w
              = on_ok (fun res => (set_rk (fst res) v, snd res)) (as_split bhc self m w)).
  { unfold as_split. cbn [nk set_rk].
    apply on_ok_bind with (f := fun u : unit => u); [reflexivity|].
    intros [] w0. destruct (m <? Z.of_nat (nk self))%Z.
    - apply on_ok_bind with (f := fun p => set_rk p v);
        [apply subsample_bhc_set_rk|].
      intros p1 w1.
      apply on_ok_bind with (f := fun p => set_rk p v);
        [apply filter_data_set_rk|].
      intros p2 w2. cbn [left_data right_data data_model crp_alpha set_rk].
      unfold bind, attr, ret, raise, on_ok.
      destruct (left_data p2); [|reflexivity].
      destruct (right_data p2); reflexivity.
    - cbn [data data_model crp_alpha set_rk]. reflexivity. }
  split; [exact E|].
  intros p b l H. rewrite E in H. unfold on_ok in H. cbn [fst] in H.
  destruct (as_split bhc self m w) as [[[p0 [b0 c0]]|e|] w1] eqn:E0;
    cbn [fst snd] in H; try discriminate H.
  inversion H; subst. clear H. split; [reflexivity|].
  destruct (@as_split_Ok_inv Row bhc self p0 m w w1 b (Children l) E0)
    as [(_ & _ & L & R & _ & _ & El)|(_ & _ & _ & El)].
  - inversion El; subst. repeat constructor.
  - discriminate El.
Qed.

(** X12.  When [filter_data] returns, on a node whose count is the number of
    its rows: exactly when the node has a probe tree with both children and
    its subsample indices.  Otherwise it fails with an AttributeError on
    reading what is missing, before any call of the data model and with the
    world as it was; it never fails with an IndexError. *)
Theorem filter_data_outcomes (Row : Type) (self : rbhc_Node Row) (w : world Row) :
  nk self = length (data self) ->
  (is_ok (fst (filter_data self w)) = true <->
   exists t lc rc idx,
     sub_bhc self = Some t /\ left_child (root_node t) = Some lc /\
     right_child (root_node t) = Some rc /\ sub_indexes self = Some idx) /\
  (is_ok (fst (filter_data self w)) = false ->
   filter_data self w = (Raise AttributeError, w)).
Proof.
  intro Hnk.
  destruct self as [D dm alpha n rk si sb ld rd]. cbn [nk data] in Hnk. subst n.
  cbn [sub_bhc sub_indexes].
  assert (Hfail : forall s : rbhc_Node Row,
            filter_data s w = (Raise AttributeError, w) ->
            (forall t lc rc idx,
               ~ (sub_bhc s = Some t /\ left_child (root_node t) = Some lc /\
                  right_child (root_node t) = Some rc /\ sub_indexes s = Some idx)) ->
            (is_ok (fst (filter_data s w)) = true <->
             exists t lc rc idx,
               sub_bhc s = Some t /\ left_child (root_node t) = Some lc /\
               right_child (root_node t) = Some rc /\ sub_indexes s = Some idx) /\
            (is_ok (fst (filter_data s w)) = false ->
             filter_data s w = (Raise AttributeError, w))).
  { intros s E Hno. rewrite E. cbn [fst is_ok].
    split; [split; [discriminate|] | reflexivity].
    intros (t & lc & rc & idx & H). exfalso. exact (Hno t lc rc idx H). }
  destruct sb as [[[olc orc]]|].
  2:{ apply (Hfail (mkRbhcNode D dm alpha (length D) rk si None ld rd));
        [reflexivity|]. intros t lc rc idx (H & _). discriminate H. }
  destruct olc as [lc|].
  2:{ apply (Hfail (mkRbhcNode D dm alpha (length D) rk si
                      (Some (mkBhc (mkRoot None orc))) ld rd)); [reflexivity|].
      intros t lc rc idx (H & H' & _). cbn in H. inversion H; subst.
      discriminate H'. }
  destruct orc as [rc|].
  2:{ apply (Hfail (mkRbhcNode D dm alpha (length D) rk si
                      (Some (mkBhc (mkRoot (Some lc) None))) ld rd)); [reflexivity|].
      intros t lc' rc idx (H & _ & H' & _). cbn in H. inversion H; subst.
      discriminate H'. }
  destruct si as [idx|].
  2:{ apply (Hfail (mkRbhcNode D dm alpha (length D) rk None
                      (Some (mkBhc (mkRoot (Some lc) (Some rc)))) ld rd));
        [reflexivity|]. intros t lc' rc' idx (_ & _ & _ & H). discriminate H. }
  clear Hfail. cbn [sub_bhc sub_indexes]. rewrite filter_data_ok. cbn [fst is_ok].
  split; [split; [|reflexivity] | discriminate].
  intros _. eexists _, lc, rc, idx. repeat split.
Qed.

Lemma filter_data_outcomes_witness :
  let self := rbhc_Node_init four_rows by_size 1%float in
  nk self = length (data self) /\
  (is_ok (fst (filter_data self empty_world)) = true <->
   exists t lc rc idx,
     sub_bhc self = Some t /\ left_child (root_node t) = Some lc /\
     right_child (root_node t) = Some rc /\ sub_indexes self = Some idx) /\
  (is_ok (fst (filter_data self empty_world)) = false ->
   filter_data self empty_world = (Raise AttributeError, empty_world)).
Proof.
  intro self.
  assert (H : nk self = length (data self)) by reflexivity.
  split; [exact H|].
  exact (@filter_data_outcomes float self empty_world H).
Defined.

(** ** How deep the recursion goes, and what the exact clusterer is given *)

Section Depth.

Variable Row : Type.
Variable bhc : list Row -> CollapsibleDistribution Row -> float -> bhc_tree Row.
Hypothesis bhc_ok : bhc_contract bhc.
Variable dm : CollapsibleDistribution Row.
Variable alpha : float.
Variable m : Z.
Variable D0 : list Row.

Lemma recursive_split_depth :
  (2 <= m)%Z ->
  forall (fuel : nat) (D : list Row) (w : world Row),
    1 <= fuel -> length D < fuel + Z.to_nat m ->
    exists t w',
      recursive_split bhc fuel (mkRbhc D0 dm alpha m) (rbhc_Node_init D dm alpha) w
        = (Ok t, w') /\
      depth t <= fuel /\
      every_call (fun n => data n = [] -> D = []) t.
Proof.
  intro Hm. induction fuel as [|fuel IH]; intros D w Hf Hlen; [lia|].
  cbn [recursive_split sub_size]. unfold bind at 1.
  destruct (Z.le_gt_cases (Z.of_nat (length D)) m) as [Hsmall|Hlarge].
  - rewrite as_split_terminal by exact Hsmall.
    unfold bind, print, ret. eexists _, _. split; [reflexivity|].
    cbn. split; [lia | trivial].
  - destruct (@as_split_partitions Row bhc bhc_ok dm alpha D m w) as
      (parent & L & R & w1 & E & Hd & Hn & HL & HR & Hp & HLn & HRn); [lia|].
    rewrite E. cbn [child nth_error]. unfold bind at 1. unfold ret at 1.
    pose proof (Permutation_length Hp) as Hsum. rewrite length_app in Hsum.
    assert (0 < length L) by (destruct L; [congruence | simpl; lia]).
    assert (0 < length R) by (destruct R; [congruence | simpl; lia]).
    destruct (IH L w1) as (tl & w2 & El & Hdl & Hcl); [lia | lia |].
    unfold bind at 1. rewrite El. unfold bind at 1. unfold ret at 1.
    destruct (IH R w2) as (tr & w3 & Er & Hdr & Hcr); [lia | lia |].
    unfold bind at 1. rewrite Er. unfold ret.
    eexists _, _. split; [reflexivity|].
    cbn [depth every_call]. split; [lia|].
    split; [|split].
    + rewrite Hd. trivial.
    + clear - Hcl H. induction tl as [n c|n l IHl r IHr]; cbn in *.
      * intro E. apply Hcl in E. subst. simpl in H. lia.
      * destruct Hcl as (Hn & Hl & Hr).
        split; [intro E; apply Hn in E; subst; simpl in H; lia|]. split; auto.
    + clear - Hcr H0. induction tr as [n c|n l IHl r IHr]; cbn in *.
      * intro E. apply Hcr in E. subst. simpl in H0. lia.
      * destruct Hcr as (Hn & Hl & Hr).
        split; [intro E; apply Hn in E; subst; simpl in H0; lia|]. split; auto.
Qed.

End Depth.

Lemma clustered_sizes (Row : Type)
  (bhc : list Row -> CollapsibleDistribution Row -> float -> bhc_tree Row)
  (dm : CollapsibleDistribution Row) (alpha : float) (m : Z) (t : call_tree Row) :
  every_call (fun n => data_model n = dm /\ crp_alpha n = alpha /\
                       nk n = length (data n) /\ log_rk n = None) t ->
  every_leaf (fun n c => n = rbhc_Node_init (data n) dm alpha /\
                         (Z.of_nat (nk n) <= m)%Z /\
                         c = BhcTree (bhc (data n) dm alpha)) t ->
  every_split (fun n => (0 <= m < Z.of_nat (nk n))%Z /\
                 exists idx,
                   sub_indexes n = Some idx /\ length idx = Z.to_nat m /\
                   NoDup idx /\ (forall i, In i idx -> i < nk n) /\
                   sub_bhc n = Some (bhc (rows_at (data n) idx) dm alpha)) t ->
  Forall (fun rows => (Z.of_nat (length rows) <= m)%Z) (clustered t) /\
  ((2 <= m)%Z -> every_call (fun n => data n <> []) t ->
   Forall (fun rows => rows <> []) (clustered t)).
Proof.
  induction t as [n c|n l IHl r IHr]; cbn [every_call every_leaf every_split clustered].
  - intros (_ & _ & Hn & _) (_ & Hs & _) _. split.
    + constructor; [lia | constructor].
    + intros _ Hd. constructor; [exact Hd | constructor].
  - intros ((_ & _ & Hn & _) & Cl & Cr) (Ll & Lr)
      ((Hm & idx & Ei & Hl & _ & Hr & _) & Sl & Sr).
    destruct (IHl Cl Ll Sl) as (Al & Bl). destruct (IHr Cr Lr Sr) as (Ar & Br).
    rewrite Ei.
    assert (Hrows : length (rows_at (data n) idx) = Z.to_nat m)
      by (rewrite rows_at_length; [exact Hl | rewrite <- Hn; exact Hr]).
    split.
    + apply Forall_app. split; [constructor; [lia | constructor]|].
      apply Forall_app. split; assumption.
    + intros H2 (_ & Dl & Dr).
      apply Forall_app. split.
      * constructor; [|constructor]. intro E. rewrite E in Hrows. simpl in Hrows. lia.
      * apply Forall_app. split; auto.
Qed.

(** X13.  The depth of the recursion: with a subsample of two rows or more
    and an exact clusterer within its interface, the build of n rows returns
    within n - m + 1 nested calls of [recursive_split] (one call when n is at
    most m). *)
Theorem build_depth (Row : Type)
  (bhc : list Row -> CollapsibleDistribution Row -> float -> bhc_tree Row)
  (D : list Row) (dm : CollapsibleDistribution Row) (alpha : float) (m : Z)
  (w : world Row) :
  bhc_contract bhc -> (2 <= m)%Z ->
  exists self t w',
    rbhc_init bhc (S (length D - Z.to_nat m)) D dm alpha m w = (Ok (self, t), w') /\
    depth t <= S (length D - Z.to_nat m).
Proof.
  intros Hc Hm.
  destruct (@recursive_split_depth Row bhc Hc dm alpha m D Hm
              (S (length D - Z.to_nat m)) D w) as (t & w' & E & Hd & _); [lia | lia |].
  exists (mkRbhc D dm alpha m), t, w'. unfold rbhc_init, bind. rewrite E.
  split; [reflexivity | exact Hd].
Qed.

Lemma build_depth_witness :
  bhc_contract (@split_first float) /\ (2 <= 2)%Z /\
  exists self t w',
    rbhc_init (@split_first float) (S (length four_rows - Z.to_nat 2)) four_rows
      by_size 1%float 2 empty_world = (Ok (self, t), w') /\
    depth t <= S (length four_rows - Z.to_nat 2).
Proof.
  assert (H1 : bhc_contract (@split_first float)) by apply split_first_contract.
  assert (H2 : (2 <= 2)%Z) by lia.
  split; [exact H1|]. split; [exact H2|].
  exact (@build_depth float (@split_first float) four_rows by_size 1%float 2%Z
           empty_world H1 H2).
Defined.

(** X14.  What the exact clusterer is given: whatever it does, in a build
    that returns every call of [bhc] was on at most [sub_size] rows; and with
    a subsample of two rows or more, an exact clusterer within its interface
    and a dataset that is not empty, the build returns without ever having
    called [bhc] on zero rows. *)
Theorem bhc_call_sizes (Row : Type)
  (bhc : list Row -> CollapsibleDistribution Row -> float -> bhc_tree Row)
  (D : list Row) (dm : CollapsibleDistribution Row) (alpha : float) (m : Z) :
  (forall (fuel : nat) (w w' : world Row) (self : rbhc Row) (t : call_tree Row),
     rbhc_init bhc fuel D dm alpha m w = (Ok (self, t), w') ->
     exists calls,
       bhc_calls w' = bhc_calls w ++ calls /\
       Forall (fun rows => (Z.of_nat (length rows) <= m)%Z) calls) /\
  (bhc_contract bhc -> (2 <= m)%Z -> D <> [] ->
   forall (fuel : nat) (w : world Row),
     length D < fuel ->
     exists self t w' calls,
       rbhc_init bhc fuel D dm alpha m w = (Ok (self, t), w') /\
       bhc_calls w' = bhc_calls w ++ calls /\
       Forall (fun rows => 1 <= length rows /\ (Z.of_nat (length rows) <= m)%Z) calls).
Proof.
  split.
  - intros fuel w w' self t H. unfold rbhc_init in H. apply bind_Ok_inv in H.
    destruct H as (t0 & w1 & E & H). unfold ret in H. inversion H; subst. clear H.
    destruct (@recursive_split_tree Row bhc dm alpha m D fuel D w w' t E)
      as (_ & _ & T3 & _ & T5 & T6 & T7).
    exists (clustered t). split; [exact T3|].
    exact (proj1 (@clustered_sizes Row bhc dm alpha m t T5 T6 T7)).
  - intros Hc Hm HD fuel w Hfuel.
    destruct (@recursive_split_depth Row bhc Hc dm alpha m D Hm fuel D w)
      as (t & w' & E & _ & Hne); [lia | lia |].
    destruct (@recursive_split_tree Row bhc dm alpha m D fuel D w w' t E)
      as (_ & _ & T3 & _ & T5 & T6 & T7).
    exists (mkRbhc D dm alpha m), t, w', (clustered t).
    split; [unfold rbhc_init, bind; rewrite E; reflexivity|].
    split; [exact T3|].
    destruct (@clustered_sizes Row bhc dm alpha m t T5 T6 T7) as (Hle & Hnonempty).
    assert (Hn : Forall (fun rows => rows <> []) (clustered t)).
    { apply Hnonempty; [exact Hm|].
      clear - Hne HD. induction t as [n c|n l IHl r IHr]; cbn in *.
      - intro E. exact (HD (Hne E)).
      - destruct Hne as (Hn & Hl & Hr). split; [intro E; exact (HD (Hn E))|].
        split; auto. }
    rewrite Forall_forall in *. intros rows Hin. split; [|apply Hle, Hin].
    specialize (Hn rows Hin). destruct rows; [congruence | simpl; lia].
Qed.

Lemma bhc_call_sizes_witness :
  bhc_contract (@split_first float) /\ (2 <= 2)%Z /\ four_rows <> [] /\
  length four_rows < 5 /\
  exists self t w' calls,
    rbhc_init (@split_first float) 5 four_rows by_size 1%float 2 empty_world
      = (Ok (self, t), w') /\
    bhc_calls w' = bhc_calls empty_world ++ calls /\
    Forall (fun rows => 1 <= length rows /\ (Z.of_nat (length rows) <= 2)%Z) calls.
Proof.
  assert (H1 : bhc_contract (@split_first float)) by apply split_first_contract.
  assert (H2 : (2 <= 2)%Z) by lia.
  assert (H3 : four_rows <> []) by discriminate.
  assert (H4 : length four_rows < 5) by (simpl; lia).
  split; [exact H1|]. split; [exact H2|]. split; [exact H3|]. split; [exact H4|].
  exact (proj2 (@bhc_call_sizes float (@split_first float) four_rows by_size 1%float
                  2%Z) H1 H2 H3 5 empty_world H4).
Defined.
